(** * nymsocketmanager: the connection-lifecycle manager

    A shallow embedding of [nymSocketManager.go].  The manager object, the
    channels it points to and the websocket connections live in an explicit
    store; every method is a computation in a small state-and-panic monad
    that also appends to a trace of the calls made on collaborators (dialer,
    connection, receive loop, logger, application handler).  The handler
    is the application's: it is a parameter of the development, a program
    over the one thing [messageDispatcher] hands it, the manager's [Send].

    What the Go code cannot decide by itself is supplied by an environment
    record passed to the method: whether a dial or a write succeeds, which
    frames the receive loop dispatches while [Start] is blocked in its
    [select], which branch of a [select] wins when both are ready.

    The two mutexes are not modelled: every method below runs to completion
    as one step, which is what holding the state lock gives [Start], [Stop],
    [IsRunning] and [GetNymClientId]; the frames that the receive loop
    dispatches while [Start] is blocked (the dispatcher takes no lock) are
    the [frames] of the environment. *)

From stdpp Require Import base option list gmap strings.
From Stdlib Require Import Strings.Ascii Strings.Byte.

Local Open Scope string_scope.
Set Warnings "-register-all".

(** ** Values decoded by [encoding/json] into [interface{}] *)

Inductive json_value :=
| JNull
| JBool (b : bool)
| JNumber (literal : string)
| JString (s : string)
| JArray (items : list json_value)
| JObject (fields : list (string * json_value)).

(** [switch v { case c: ... }] with [v] an [interface{}] and [c] a string
    constant: equal when [v] holds a string with the same contents. *)
Definition iface_is_string (v : json_value) (c : string) : bool :=
  match v with
  | JString s => bool_decide (s = c)
  | _ => false
  end.

(** The two reply structs the dispatcher decodes into. *)
Record NymSelfAddressReply := mkSelfAddressReply {
  reply_Type : string;
  Address : string;
}.

Record NymError := mkNymError {
  error_Type : string;
  Message : string;
}.

(** ** The wire codec

    The message types, their discriminator constants and the uses of
    [json.Marshal] / [json.Unmarshal] are declared outside
    [nymSocketManager.go]; the manager is parametrised by them:
    [NymMessage] is what [Send] takes, [NymReceived] what the application
    handler is given. *)
Class WireCodec (NymMessage NymReceived : Type) := {
  NewSelfAddressRequest : NymMessage;
  NymSelfAddressReplyType : string;
  NymErrorType : string;
  NymReceivedType : string;
  (** [json.Marshal(msg)] *)
  json_Marshal : NymMessage → option (list byte);
  (** [json.Unmarshal(s, &map[string]interface{})] *)
  json_Unmarshal_map : list byte → option (gmap string json_value);
  (** [json.Unmarshal(s, &NymSelfAddressReply{})] and its siblings *)
  json_Unmarshal_SelfAddressReply : list byte → option NymSelfAddressReply;
  json_Unmarshal_Error : list byte → option NymError;
  json_Unmarshal_Received : list byte → option NymReceived;
}.

(** ** Store objects *)

Definition chan_ref := nat.
Definition conn_ref := nat.
Definition listener_ref := nat.

Inductive ChanState := ChOpen | ChClosed.
Inductive ConnState := ConnOpen | ConnClosed.

Global Instance ChanState_eq_dec : EqDecision ChanState.
Proof. solve_decision. Defined.
Global Instance ConnState_eq_dec : EqDecision ConnState.
Proof. solve_decision. Defined.

Inductive Level := LvTrace | LvDebug | LvWarn | LvError.

(** One constructor per [xerrors.Errorf] site. *)
Inductive error :=
| ErrOpenConnection
| ErrInitSocketListener
| ErrSendSelfAddressRequest (cause : error)
| ErrCollectClientID
| ErrConnectionUndefined
| ErrMarshal
| ErrSendMessage
| ErrWriteClose.

Inductive WaitResult := Signalled | TimedOut.

(** The manager object: the fields of [struct NymSocketManager] that the
    methods read or write.  [messageHandler] and [logger] are set once by
    the constructor and are never nil or assigned afterwards: the handler
    is the [MessageHandler] the development is parametrised by, the calls
    on the logger are the [EvLog] events. *)
Record NymSocketManager := mkManager {
  clientID : string;
  connectionURI : string;
  connection : option conn_ref;
  selfInstanceStoppedChan : option chan_ref;
  socketListener : option listener_ref;
  closedSocketListenerChan : option chan_ref;
  selfAddressReceivedChan : option chan_ref;
}.

(** What the environment decides for a teardown. *)
Record TeardownEnv := mkTeardownEnv {
  (** the close frame is written without error *)
  close_write_ok : bool;
  (** the receive loop closes its channel before the deadline *)
  listener_acks : bool;
  (** [connection.Close()] returns no error *)
  conn_close_ok : bool;
}.

(** What the environment decides for a [Start]. *)
Record StartEnv := mkStartEnv {
  dial_ok : bool;
  listener_ok : bool;
  request_write_ok : bool;
  (** frames the receive loop dispatches while [Start] waits in [select] *)
  frames : list (list byte);
  (** both cases of the [select] ready: the timer case is picked *)
  timer_wins : bool;
  teardown : TeardownEnv;
}.

(** What a constructor returns: the object, or the text of the error. *)
Inductive error_or (A : Type) :=
| Valid (a : A)
| Invalid (msg : string).
Global Arguments Valid {A} a.
Global Arguments Invalid {A} msg.

(** The format string of the warning for a frame that is no JSON object;
    it ends in a line feed. *)
Definition unmarshal_failed_format : string :=
  "failed to unmarshal message: %v" +:+ String "010"%char EmptyString.

(** The format string of the warning for a frame without discriminator; it
    quotes the word type. *)
Definition no_type_format : string :=
  "message from mixnet have no " +:+ String "034"%char ("type" +:+ String "034"%char
    " attribute. Message: %v").

Section Manager.
Context {NymMessage NymReceived : Type} {codec : WireCodec NymMessage NymReceived}.

(** Calls on collaborators, in program order.  [EvHandler msg] is the call
    [n.messageHandler(msg, n.Send)]; the calls of [Send] the handler makes
    before it returns follow it in the trace. *)
Inductive Event :=
| EvLog (lvl : Level) (format : string)
| EvDial (uri : string) (res : option conn_ref)
| EvNewSocketListener (c : conn_ref) (res : option listener_ref)
| EvGoListen (l : listener_ref)
| EvMakeChan (ch : chan_ref)
| EvWriteText (c : conn_ref) (payload : list byte) (ok : bool)
| EvWriteClose (c : conn_ref) (ok : bool)
| EvAwaitIdentity (ch : option chan_ref) (r : WaitResult)
| EvAwaitListenerClosed (ch : option chan_ref) (r : WaitResult)
| EvConnClose (c : conn_ref) (ok : bool)
| EvChanClose (ch : chan_ref)
| EvHandler (msg : NymReceived).

Record World := mkWorld {
  mgr : NymSocketManager;
  chans : list ChanState;
  conns : list ConnState;
  listeners : nat;
  trace : list Event;
}.

(** ** The monad: state plus Go panics *)

Inductive Res (A : Type) :=
| Done (a : A) (w : World)
| Panic (reason : string) (w : World).
Global Arguments Done {A} a w.
Global Arguments Panic {A} reason w.

Definition M (A : Type) : Type := World → Res A.

Global Instance M_ret : MRet M := λ A a w, Done a w.
Global Instance M_bind : MBind M := λ A B f m w,
  match m w with
  | Done a w' => f a w'
  | Panic r w' => Panic r w'
  end.

Definition world_of {A} (r : Res A) : World :=
  match r with Done _ w => w | Panic _ w => w end.

Definition getMgr : M NymSocketManager := λ w, Done (mgr w) w.

Definition modMgr (f : NymSocketManager → NymSocketManager) : M unit :=
  λ w, Done tt (mkWorld (f (mgr w)) (chans w) (conns w) (listeners w) (trace w)).

Definition emit (e : Event) : M unit :=
  λ w, Done tt (mkWorld (mgr w) (chans w) (conns w) (listeners w) (trace w ++ [e])).

Definition log (lvl : Level) (format : string) : M unit := emit (EvLog lvl format).

(** Field assignments. *)
Definition set_clientID (v : string) (n : NymSocketManager) :=
  mkManager v (connectionURI n) (connection n) (selfInstanceStoppedChan n)
    (socketListener n) (closedSocketListenerChan n) (selfAddressReceivedChan n).
Definition set_connection (v : option conn_ref) (n : NymSocketManager) :=
  mkManager (clientID n) (connectionURI n) v (selfInstanceStoppedChan n)
    (socketListener n) (closedSocketListenerChan n) (selfAddressReceivedChan n).
Definition set_selfInstanceStoppedChan (v : option chan_ref) (n : NymSocketManager) :=
  mkManager (clientID n) (connectionURI n) (connection n) v
    (socketListener n) (closedSocketListenerChan n) (selfAddressReceivedChan n).
Definition set_socketListener (v : option listener_ref) (n : NymSocketManager) :=
  mkManager (clientID n) (connectionURI n) (connection n) (selfInstanceStoppedChan n)
    v (closedSocketListenerChan n) (selfAddressReceivedChan n).
Definition set_closedSocketListenerChan (v : option chan_ref) (n : NymSocketManager) :=
  mkManager (clientID n) (connectionURI n) (connection n) (selfInstanceStoppedChan n)
    (socketListener n) v (selfAddressReceivedChan n).
Definition set_selfAddressReceivedChan (v : option chan_ref) (n : NymSocketManager) :=
  mkManager (clientID n) (connectionURI n) (connection n) (selfInstanceStoppedChan n)
    (socketListener n) (closedSocketListenerChan n) v.

(** ** Primitives of the Go runtime and of the collaborators *)

(** [make(chan T)]: a new open channel. *)
Definition make_chan : M chan_ref := λ w,
  let ch := length (chans w) in
  Done ch (mkWorld (mgr w) (chans w ++ [ChOpen]) (conns w) (listeners w)
             (trace w ++ [EvMakeChan ch])).

(** [close(ch)] on a non-nil channel: panics when [ch] is already closed. *)
Definition close_chan (ch : chan_ref) : M unit := λ w,
  match chans w !! ch with
  | Some ChOpen =>
      Done tt (mkWorld (mgr w) (<[ch := ChClosed]> (chans w)) (conns w) (listeners w)
                 (trace w ++ [EvChanClose ch]))
  | _ => Panic "close of closed channel" w
  end.

Definition chan_closed (ch : chan_ref) (w : World) : bool :=
  bool_decide (chans w !! ch = Some ChClosed).

(** [websocket.DefaultDialer.Dial(uri, nil)]: a new open connection, or nil
    and an error. *)
Definition Dial (uri : string) (ok : bool) : M (option conn_ref) := λ w,
  if ok then
    let c := length (conns w) in
    Done (Some c) (mkWorld (mgr w) (chans w) (conns w ++ [ConnOpen]) (listeners w)
                     (trace w ++ [EvDial uri (Some c)]))
  else
    Done None (mkWorld (mgr w) (chans w) (conns w) (listeners w)
                 (trace w ++ [EvDial uri None])).

(** Modelled from the spec: [NewSocketListener], the constructor of the
    receive loop, which this file only calls.  On success it returns the
    loop and the one-shot channel the loop closes when it terminates; on
    failure nil, nil and an error. *)
Definition NewSocketListener (c : conn_ref) (ok : bool)
  : M (option (listener_ref * chan_ref)) := λ w,
  if ok then
    let l := listeners w in
    let ch := length (chans w) in
    Done (Some (l, ch))
      (mkWorld (mgr w) (chans w ++ [ChOpen]) (conns w) (S (listeners w))
         (trace w ++ [EvNewSocketListener c (Some l)]))
  else
    Done None
      (mkWorld (mgr w) (chans w) (conns w) (listeners w)
         (trace w ++ [EvNewSocketListener c None])).

(** [connection.WriteMessage(websocket.TextMessage, payload)]: fails on a
    closed connection, otherwise as the network decides. *)
Definition WriteTextMessage (c : conn_ref) (payload : list byte) (net_ok : bool) : M bool := λ w,
  let ok := net_ok && bool_decide (conns w !! c = Some ConnOpen) in
  Done ok (mkWorld (mgr w) (chans w) (conns w) (listeners w)
             (trace w ++ [EvWriteText c payload ok])).

(** [connection.WriteMessage(websocket.CloseMessage, ...)] *)
Definition WriteCloseMessage (c : conn_ref) (net_ok : bool) : M bool := λ w,
  let ok := net_ok && bool_decide (conns w !! c = Some ConnOpen) in
  Done ok (mkWorld (mgr w) (chans w) (conns w) (listeners w)
             (trace w ++ [EvWriteClose c ok])).

(** [connection.Close()] *)
Definition ConnClose (c : conn_ref) (ok : bool) : M bool := λ w,
  Done ok (mkWorld (mgr w) (chans w) (<[c := ConnClosed]> (conns w)) (listeners w)
             (trace w ++ [EvConnClose c ok])).

(** [select { case <-ch: ...; case <-time.After(5s): ... }] in [Start]:
    the channel case is ready once the channel is closed (a nil channel
    never is). *)
Definition awaitIdentity (ch : option chan_ref) (timer_first : bool) : M WaitResult := λ w,
  let ready := match ch with Some c => chan_closed c w | None => false end in
  let r := if ready && negb timer_first then Signalled else TimedOut in
  Done r (mkWorld (mgr w) (chans w) (conns w) (listeners w)
            (trace w ++ [EvAwaitIdentity ch r])).

(** The same [select] in [selfDestruct], on the receive loop's channel: a
    nil channel is never ready; an open one is closed by the receive loop
    within the deadline when the environment says so. *)
Definition awaitListenerClosed (ch : option chan_ref) (acks : bool) : M WaitResult := λ w,
  match ch with
  | None =>
      Done TimedOut (mkWorld (mgr w) (chans w) (conns w) (listeners w)
                       (trace w ++ [EvAwaitListenerClosed ch TimedOut]))
  | Some c =>
      if chan_closed c w then
        Done Signalled (mkWorld (mgr w) (chans w) (conns w) (listeners w)
                          (trace w ++ [EvAwaitListenerClosed ch Signalled]))
      else if acks then
        Done Signalled (mkWorld (mgr w) (<[c := ChClosed]> (chans w)) (conns w) (listeners w)
                          (trace w ++ [EvAwaitListenerClosed ch Signalled]))
      else
        Done TimedOut (mkWorld (mgr w) (chans w) (conns w) (listeners w)
                         (trace w ++ [EvAwaitListenerClosed ch TimedOut]))
  end.

(** ** The methods of [NymSocketManager] *)

Definition initWorld (n : NymSocketManager) : World := mkWorld n [] [] 0 [].

(** [NewNymSocketManager]: the handler and the logger are passed as
    "is it non-nil". *)
Definition NewNymSocketManager (connectionURI : string)
    (messageHandler parentLogger : bool) : error_or NymSocketManager :=
  if bool_decide (String.length connectionURI = 0) then
    Invalid "connection URI cannot be empty"
  else if negb messageHandler then
    Invalid "processing function needs to be defined"
  else if negb parentLogger then
    Invalid "logger needs to be defined"
  else
    Valid (mkManager "" connectionURI None None None None None).

Definition IsRunning : M bool :=
  n ← getMgr; mret (bool_decide (connection n ≠ None)).

Definition GetNymClientId : M string :=
  n ← getMgr; mret (clientID n).

Definition Send (msg : NymMessage) (net_ok : bool) : M (option error) :=
  n ← getMgr;
  match connection n with
  | None =>
      log LvWarn "connection is undefined. Is the NymSocketManager started?";;
      mret (Some ErrConnectionUndefined)
  | Some c =>
      match json_Marshal msg with
      | None =>
          log LvWarn "failed to marshal NymMessage: %v";;
          mret (Some ErrMarshal)
      | Some msgBytes =>
          ok ← WriteTextMessage c msgBytes net_ok;
          if ok : bool then mret None
          else
            log LvWarn "failed to send message: %v";;
            mret (Some ErrSendMessage)
      end
  end.

Definition sendCloseSignal (net_ok : bool) : M (option error) :=
  n ← getMgr;
  match connection n with
  | None =>
      log LvWarn "connection is undefined. Is the NymSocketManager started?";;
      mret (Some ErrConnectionUndefined)
  | Some c =>
      ok ← WriteCloseMessage c net_ok;
      if ok : bool then
        log LvDebug "sent websocket close message";;
        mret None
      else
        log LvWarn "failed to write close: %v";;
        mret (Some ErrWriteClose)
  end.

Definition selfDestruct (env : TeardownEnv) : M unit :=
  log LvDebug "selfDestructing";;
  n ← getMgr;
  match selfInstanceStoppedChan n with
  | None => log LvDebug "already selfDestructed"
  | Some _ =>
      match socketListener n with
      | Some _ =>
          log LvTrace "sending close signal on socket and waiting for confirmation from socketListener";;
          sendCloseSignal (close_write_ok env);;
          r ← awaitListenerClosed (closedSocketListenerChan n) (listener_acks env);
          match r with
          | Signalled => log LvDebug "underlying connection closed"
          | TimedOut => log LvDebug "timed-out (%v) on waiting for underlying connection to close"
          end;;
          log LvTrace "removing socketListener";;
          modMgr (set_socketListener None)
      | None => mret tt
      end;;
      n ← getMgr;
      match connection n with
      | Some c =>
          log LvTrace "closing local connection";;
          ok ← ConnClose c (conn_close_ok env);
          (if ok : bool then mret tt
           else log LvWarn "error while closing connection: %v");;
          modMgr (set_connection None)
      | None => mret tt
      end;;
      n ← getMgr;
      match selfInstanceStoppedChan n with
      | Some ch =>
          log LvTrace "closing channel to indicate upstream that closed";;
          close_chan ch;;
          modMgr (set_selfInstanceStoppedChan None)
      | None => mret tt
      end;;
      log LvDebug "selfDestructed"
  end.

Definition Stop (env : TeardownEnv) : M unit :=
  log LvDebug "stopping NymSocketManager";;
  n ← getMgr;
  match connection n with
  | None => mret tt
  | Some _ =>
      selfDestruct env;;
      log LvDebug "stopped NymSocketManager"
  end.

(** ** The application's handler

    [messageHandler] has type [func(NymReceived, func(NymMessage) error)]:
    it is given a message and a send function, and [messageDispatcher]
    passes the manager's own [Send] for the latter.  What a handler does
    with the manager is therefore a sequence of calls of [Send], each
    continued on the error that call returned; [net_ok] is what the network
    does with the write of that call.  The handlers covered are those that
    return: one that panics or never returns stops the receive loop
    whatever the manager does. *)
Inductive HandlerRun :=
| HReturn
| HSend (msg : NymMessage) (net_ok : bool) (k : option error → HandlerRun).

(** The handler the constructor was given.  It is a closure: what it does
    with a message may depend on what has happened before, which it is
    given as the trace so far. *)
Class MessageHandler :=
  messageHandler : list Event → NymReceived → HandlerRun.

Context {application : MessageHandler}.

Definition getTrace : M (list Event) := λ w, Done (trace w) w.

(** The body of the handler, with [n.Send] for its send function. *)
Fixpoint runHandler (h : HandlerRun) : M unit :=
  match h with
  | HReturn => mret tt
  | HSend msg net_ok k => e ← Send msg net_ok; runHandler (k e)
  end.

(** [n.messageHandler(msg, n.Send)] *)
Definition call_messageHandler (msg : NymReceived) : M unit :=
  emit (EvHandler msg);;
  past ← getTrace;
  runHandler (messageHandler past msg).

Definition messageDispatcher (s : list byte) : M unit :=
  match json_Unmarshal_map s with
  | None => log LvWarn unmarshal_failed_format
  | Some receivedMessageJSON =>
      match receivedMessageJSON !! "type" with
      | None => log LvWarn no_type_format
      | Some ty =>
          if iface_is_string ty NymSelfAddressReplyType then
            match json_Unmarshal_SelfAddressReply s with
            | None => log LvWarn "failed to unmarshal SelfAddressReply: %v"
            | Some reply =>
                modMgr (set_clientID (Address reply));;
                log LvDebug "Got %v reply: Address is %v";;
                n ← getMgr;
                match selfAddressReceivedChan n with
                | Some ch => close_chan ch
                | None => mret tt
                end
            end
          else if iface_is_string ty NymErrorType then
            match json_Unmarshal_Error s with
            | None => log LvWarn "failed to unmarshal errorMessage: %v"
            | Some reply => log LvError "Got error from mixnet: %v"
            end
          else if iface_is_string ty NymReceivedType then
            match json_Unmarshal_Received s with
            | None => log LvWarn "failed to unmarshal NymMessage: %v"
            | Some msg =>
                log LvDebug "got: %v";;
                call_messageHandler msg
            end
          else log LvWarn "encountered unparsed type of message: %v"
      end
  end.

(** The receive loop hands the frames to the dispatcher one after the
    other. *)
Fixpoint dispatchAll (fs : list (list byte)) : M unit :=
  match fs with
  | [] => mret tt
  | s :: rest => messageDispatcher s;; dispatchAll rest
  end.

Definition Start (env : StartEnv) : M (option chan_ref * option error) :=
  log LvDebug "starting NymSocketManager";;
  n ← getMgr;
  match connection n with
  | Some _ =>
      log LvWarn "connection to websocket %s already established. Resuming...";;
      mret (None, None)
  | None =>
      c ← Dial (connectionURI n) (dial_ok env);
      modMgr (set_connection c);;
      match c with
      | None =>
          log LvWarn "failed to open connection to %v (%v). Is the websocket up and running?";;
          mret (None, Some ErrOpenConnection)
      | Some conn =>
          r ← NewSocketListener conn (listener_ok env);
          modMgr (set_socketListener (fst <$> r));;
          modMgr (set_closedSocketListenerChan (snd <$> r));;
          match r with
          | None =>
              log LvWarn "failed to initiate the socketListener: %v";;
              selfDestruct (teardown env);;
              mret (None, Some ErrInitSocketListener)
          | Some (l, _) =>
              emit (EvGoListen l);;
              ch ← make_chan;
              modMgr (set_selfAddressReceivedChan (Some ch));;
              e ← Send NewSelfAddressRequest (request_write_ok env);
              match e with
              | Some cause =>
                  log LvWarn "failed to send SelfAddressRequest: %v";;
                  selfDestruct (teardown env);;
                  mret (None, Some (ErrSendSelfAddressRequest cause))
              | None =>
                  dispatchAll (frames env);;
                  n ← getMgr;
                  r ← awaitIdentity (selfAddressReceivedChan n) (timer_wins env);
                  match r with
                  | Signalled =>
                      log LvDebug "successfully collected clientID with socketListener";;
                      modMgr (set_selfAddressReceivedChan None);;
                      sc ← make_chan;
                      modMgr (set_selfInstanceStoppedChan (Some sc));;
                      log LvDebug "started NymSocketManager";;
                      mret (Some sc, None)
                  | TimedOut =>
                      log LvWarn "failed to collect clientID from %v";;
                      selfDestruct (teardown env);;
                      mret (None, Some ErrCollectClientID)
                  end
              end
          end
      end
  end.

(** ** Vocabulary of the statements *)

(** Nothing but the trace differs between [w] and [w']. *)
Definition same_store (w w' : World) : Prop :=
  mgr w' = mgr w ∧ chans w' = chans w ∧ conns w' = conns w ∧
  listeners w' = listeners w.

Definition is_log (e : Event) : bool :=
  match e with EvLog _ _ => true | _ => false end.

(** The calls of a trace that are not log lines. *)
Definition effects (t : list Event) : list Event :=
  List.filter (λ e, negb (is_log e)) t.

(** How the dispatcher classifies a frame, by the tests it makes in the
    order it makes them. *)
Inductive FrameKind :=
| Unparseable | NoDiscriminator | IdentityReply | ErrorReply
| ApplicationData | Unrecognized.

Definition frameKind (s : list byte) : FrameKind :=
  match json_Unmarshal_map s with
  | None => Unparseable
  | Some m =>
      match m !! "type" with
      | None => NoDiscriminator
      | Some ty =>
          if iface_is_string ty NymSelfAddressReplyType then IdentityReply
          else if iface_is_string ty NymErrorType then ErrorReply
          else if iface_is_string ty NymReceivedType then ApplicationData
          else Unrecognized
      end
  end.

(** The address carried by a frame that is an identity reply and decodes
    as one. *)
Definition identityOf (s : list byte) : option string :=
  match frameKind s with
  | IdentityReply => Address <$> json_Unmarshal_SelfAddressReply s
  | _ => None
  end.

(** The address of the most recent identity reply among [fs]. *)
Definition lastIdentity (fs : list (list byte)) : option string :=
  last (omap identityOf fs).

(** What a method returned, when it returned. *)
Definition result {A} (r : Res A) : option A :=
  match r with Done a _ => Some a | Panic _ _ => None end.

(** The state a successful [Start] establishes: transport open, receive
    loop attached, stopped-notification channel allocated and open, and a
    channel of its own for the receive loop. *)
Definition Ready (w : World) : Prop :=
  ∃ c l sc,
    connection (mgr w) = Some c ∧ socketListener (mgr w) = Some l ∧
    selfInstanceStoppedChan (mgr w) = Some sc ∧
    chans w !! sc = Some ChOpen ∧
    closedSocketListenerChan (mgr w) ≠ Some sc.

(** [w'] is [w] after one complete teardown of connection [c] with
    stopped-notification channel [sc]: apart from log lines the calls made
    are, in this order, the close frame, the bounded wait for the receive
    loop, the close of the connection and the close of [sc]; the three
    handles are nil afterwards. *)
Definition torn_down (env : TeardownEnv) (c : conn_ref) (sc : chan_ref)
    (w w' : World) : Prop :=
  ∃ written waited evs,
    trace w' = (trace w ++ evs)%list ∧
    effects evs =
      [EvWriteClose c written;
       EvAwaitListenerClosed (closedSocketListenerChan (mgr w)) waited;
       EvConnClose c (conn_close_ok env);
       EvChanClose sc] ∧
    mgr w' = set_selfInstanceStoppedChan None
               (set_connection None (set_socketListener None (mgr w))) ∧
    conns w' = <[c := ConnClosed]> (conns w) ∧
    chans w' !! sc = Some ChClosed.

(** The calls an application and the receive loop make on a manager. *)
Inductive Op :=
| OpStart (env : StartEnv)
| OpStop (env : TeardownEnv)
| OpSend (msg : NymMessage) (net_ok : bool)
| OpFrame (s : list byte)
| OpIsRunning
| OpGetNymClientId.

Definition call (o : Op) : M unit :=
  match o with
  | OpStart env => Start env;; mret tt
  | OpStop env => Stop env
  | OpSend msg net_ok => Send msg net_ok;; mret tt
  | OpFrame s => messageDispatcher s
  | OpIsRunning => IsRunning;; mret tt
  | OpGetNymClientId => GetNymClientId;; mret tt
  end.

Fixpoint run (ops : list Op) : M unit :=
  match ops with
  | [] => mret tt
  | o :: rest => call o;; run rest
  end.

(** A stopped-notification channel exists only while a connection does. *)
Definition no_stale_channel (w : World) : Prop :=
  connection (mgr w) = None → selfInstanceStoppedChan (mgr w) = None.

(** What the dispatcher may change: the identity, and the state of
    channels (not their number). *)
Definition dispatch_frame (w w' : World) : Prop :=
  connectionURI (mgr w') = connectionURI (mgr w) ∧
  connection (mgr w') = connection (mgr w) ∧
  selfInstanceStoppedChan (mgr w') = selfInstanceStoppedChan (mgr w) ∧
  socketListener (mgr w') = socketListener (mgr w) ∧
  closedSocketListenerChan (mgr w') = closedSocketListenerChan (mgr w) ∧
  selfAddressReceivedChan (mgr w') = selfAddressReceivedChan (mgr w) ∧
  length (chans w') = length (chans w) ∧
  conns w' = conns w ∧ listeners w' = listeners w.

(** A computation that does not assign [clientID], whether it returns or
    panics. *)
Definition keeps_id {A} (m : M A) : Prop :=
  ∀ w, clientID (mgr (world_of (m w))) = clientID (mgr w).

(** The messages the application handler has been called with, oldest
    first. *)
Definition handlerCalls (t : list Event) : list NymReceived :=
  omap (λ e, match e with EvHandler msg => Some msg | _ => None end) t.

(** The text frames written, oldest first: connection, payload and whether
    the write succeeded. *)
Definition textWrites (t : list Event) : list (conn_ref * list byte * bool) :=
  omap (λ e, match e with
             | EvWriteText c payload ok => Some (c, payload, ok)
             | _ => None
             end) t.

(** What a call of [Send] on manager [n] may add to the trace: log lines
    and the write of a text frame on the connection of [n]. *)
Definition send_event (n : NymSocketManager) (e : Event) : Prop :=
  match e with
  | EvLog _ _ => True
  | EvWriteText c _ _ => connection n = Some c
  | _ => False
  end.

(** The message of a frame that is application data and decodes as such. *)
Definition applicationMessage (s : list byte) : option NymReceived :=
  match frameKind s with
  | ApplicationData => json_Unmarshal_Received s
  | _ => None
  end.

(** Between sessions or in one: there is no stopped-notification channel,
    or the manager is [Ready] and no [Start] is waiting for an identity. *)
Definition session_settled (w : World) : Prop :=
  selfInstanceStoppedChan (mgr w) = None ∨
  (Ready w ∧ selfAddressReceivedChan (mgr w) = None).

(** The only connection on which [Close()] has not been called is the one
    the manager holds. *)
Definition single_connection (w : World) : Prop :=
  ∀ c, conns w !! c = Some ConnOpen → connection (mgr w) = Some c.

(** A sequence of [Stop] calls. *)
Fixpoint stopAll (envs : list TeardownEnv) : M unit :=
  match envs with
  | [] => mret tt
  | env :: rest => Stop env;; stopAll rest
  end.

End Manager.

(** ** A concrete codec

    Enough of JSON for running the manager on real frames: objects whose
    members are strings, written without white space and without escapes,
    such as [{"type":"error","message":"boom"}].  Messages of both
    directions are kept as their list of members. *)
Module Demo.

Definition dq : ascii := "034"%char.

Definition quoted (s : string) : string := String dq (s +:+ String dq "").

Fixpoint render_members (l : list (string * string)) : string :=
  match l with
  | [] => ""
  | [(k, v)] => quoted k +:+ ":" +:+ quoted v
  | (k, v) :: rest => quoted k +:+ ":" +:+ quoted v +:+ "," +:+ render_members rest
  end.

Definition render (l : list (string * string)) : list byte :=
  String.list_byte_of_string ("{" +:+ render_members l +:+ "}").

(** The text up to the closing quote, and what follows it. *)
Fixpoint read_quoted (s : string) : option (string * string) :=
  match s with
  | EmptyString => None
  | String c rest =>
      if Ascii.eqb c dq then Some ("", rest)
      else if Ascii.eqb c "\"%char then None
      else match read_quoted rest with
           | Some (t, r) => Some (String c t, r)
           | None => None
           end
  end.

Fixpoint read_members (fuel : nat) (s : string) : option (list (string * string)) :=
  match fuel with
  | 0 => None
  | S fuel' =>
      match s with
      | String c rest =>
          if Ascii.eqb c dq then
            match read_quoted rest with
            | Some (k, String ":" (String c2 r2)) =>
                if Ascii.eqb c2 dq then
                  match read_quoted r2 with
                  | Some (v, "}") => Some [(k, v)]
                  | Some (v, String "," r3) =>
                      match read_members fuel' r3 with
                      | Some l => Some ((k, v) :: l)
                      | None => None
                      end
                  | _ => None
                  end
                else None
            | _ => None
            end
          else None
      | EmptyString => None
      end
  end.

Definition parse (s : list byte) : option (list (string * string)) :=
  match String.string_of_list_byte s with
  | "{}" => Some []
  | String "{" rest => read_members (String.length rest) rest
  | _ => None
  end.

(** A later member with the same key replaces an earlier one. *)
Definition field (k : string) (l : list (string * string)) : string :=
  default "" (list_to_map (M := gmap string string) (reverse l) !! k).

#[export] Instance codec
  : WireCodec (list (string * string)) (list (string * string)) := {|
  NewSelfAddressRequest := [("type", "selfAddress")];
  NymSelfAddressReplyType := "selfAddress";
  NymErrorType := "error";
  NymReceivedType := "received";
  json_Marshal := λ m, Some (render m);
  json_Unmarshal_map := λ s,
    (λ l, list_to_map (reverse (prod_map id JString <$> l))) <$> parse s;
  json_Unmarshal_SelfAddressReply := λ s,
    (λ l, mkSelfAddressReply (field "type" l) (field "address" l)) <$> parse s;
  json_Unmarshal_Error := λ s,
    (λ l, mkNymError (field "type" l) (field "message" l)) <$> parse s;
  json_Unmarshal_Received := parse;
|}.

(** The frames of the examples. *)
Definition identity_reply (address : string) : list byte :=
  render [("type", "selfAddress"); ("address", address)].
Definition error_reply (message : string) : list byte :=
  render [("type", "error"); ("message", message)].
Definition application_data (payload : string) : list byte :=
  render [("type", "received"); ("payload", payload)].

(** The application of the examples sends every message it is given back
    to where it came from. *)
#[export] Instance echo
  : @MessageHandler (list (string * string)) (list (string * string)) :=
  λ _ msg,
    HSend [("type", "send"); ("message", field "payload" msg)] true
      (λ _, HReturn).

Local Abbreviation World := (@World (list (string * string))).

(** A manager as the constructor returns it. *)
Definition idle : World :=
  initWorld (mkManager "" "ws://127.0.0.1:1977" None None None None None).

(** Teardown environments: everything goes well; the peer is gone (the
    close frame cannot be written, the receive loop never reports, closing
    fails). *)
Definition calm : TeardownEnv := mkTeardownEnv true true true.
Definition deaf : TeardownEnv := mkTeardownEnv false false false.

(** [Start] environments: the peer answers the identity request with the
    given addresses, one frame each, before [Start] wakes up. *)
Definition answering (addresses : list string) : StartEnv :=
  mkStartEnv true true true (identity_reply <$> addresses) false calm.

(** The peer accepts the connection and never answers. *)
Definition silent : StartEnv := answering [].

(** A session started with identity [A]. *)
Definition running : World := world_of (Start (answering ["A"]) idle).

(** The same session after [Stop]. *)
Definition stopped : World := world_of (Stop calm running).

(** The manager after a [Start] that timed out. *)
Definition timed_out : World := world_of (Start silent idle).

(** The peer cannot be reached. *)
Definition unreachable : StartEnv := mkStartEnv false true true [] false calm.


(** The session stopped and started again, with identity [B]. *)
Definition restarted : World := world_of (Start (answering ["B"]) stopped).

(** A day in the life of a manager: a session with traffic in both
    directions, its end, and a second [Start] that times out. *)
Definition a_day : list (@Op (list (string * string))) :=
  [OpStart (answering ["A"]); OpFrame (application_data "X");
   OpSend [("type", "send"); ("message", "Y")] true; OpIsRunning;
   OpStop deaf; OpGetNymClientId; OpStart silent].

Definition evening : World := world_of (run a_day idle).

(** What may follow the timed-out [Start]. *)
Definition aftermath : list (@Op (list (string * string))) :=
  [OpStop calm; OpStart (answering ["A"]); OpFrame (identity_reply "A");
   OpSend NewSelfAddressRequest true].

End Demo.

(** * Properties *)

Section Properties.
Context {NymMessage NymReceived : Type} {codec : WireCodec NymMessage NymReceived}.
Context {application : @MessageHandler NymMessage NymReceived}.
Local Open Scope list_scope.

Local Abbreviation World := (@World NymReceived).
Local Abbreviation Event := (@Event NymReceived).
Local Abbreviation M := (@M NymReceived).

(** Unfolds the monad and the primitives; what is left is a tree of
    matches on the fields and on the environment. *)
Ltac unfold_m :=
  cbv [mbind M_bind mret M_ret getMgr modMgr log emit make_chan close_chan
       Dial NewSocketListener WriteTextMessage WriteCloseMessage ConnClose
       awaitIdentity awaitListenerClosed chan_closed].

Tactic Notation "unfold_m" "in" hyp(H) :=
  cbv [mbind M_bind mret M_ret getMgr modMgr log emit make_chan close_chan
       Dial NewSocketListener WriteTextMessage WriteCloseMessage ConnClose
       awaitIdentity awaitListenerClosed chan_closed] in H.

Ltac open_world w :=
  destruct w as [[n_id n_uri n_conn n_sc n_sl n_lch n_ach] chs cns ls tr]; simpl in *.

Lemma same_store_refl (w : World) : same_store w w.
Proof. by repeat split. Qed.

Lemma same_store_trans (w1 w2 w3 : World) :
  same_store w1 w2 → same_store w2 w3 → same_store w1 w3.
Proof. intros (?&?&?&?) (?&?&?&?). repeat split; congruence. Qed.

(** C8: [Send] on a manager without connection returns the "connection is
    undefined ... started?" error, writes nothing on any connection and
    leaves the manager, the channels and the connections as they were; its
    only output is the warning. *)
Theorem Send_not_started (msg : NymMessage) (net_ok : bool) (w : World) :
  connection (mgr w) = None →
  ∃ w', Send msg net_ok w = Done (Some ErrConnectionUndefined) w' ∧
        same_store w w' ∧
        trace w' = trace w ++
          [EvLog LvWarn "connection is undefined. Is the NymSocketManager started?"] ∧
        effects (trace w') = effects (trace w).
Proof.
  intros Hc. open_world w. subst n_conn.
  eexists. split; [reflexivity|]. simpl.
  split; [by repeat split|]. split; [done|].
  unfold effects. rewrite List.filter_app. simpl. by rewrite app_nil_r.
Qed.

Lemma effects_app (t1 t2 : list Event) :
  effects (t1 ++ t2) = effects t1 ++ effects t2.
Proof. apply List.filter_app. Qed.

(** ** The handler's run

    Whatever the handler does with the send function, its run returns and
    leaves the manager, the channels and the connections as they were; it
    adds to the trace what its calls of [Send] add. *)
Lemma Send_events (msg : NymMessage) (net_ok : bool) (w : World) :
  ∃ e w' evs, Send msg net_ok w = Done e w' ∧ same_store w w' ∧
    trace w' = trace w ++ evs ∧ Forall (send_event (mgr w)) evs.
Proof.
  open_world w. unfold Send. unfold_m. simpl.
  repeat case_match; eexists _, _, _; (split; [reflexivity|]);
    (split; [by repeat split|]); simpl; (split; [by rewrite <- ?app_assoc|]);
    repeat constructor; by simpl.
Qed.

Lemma runHandler_events (h : HandlerRun) (w : World) :
  ∃ w' evs, runHandler h w = Done tt w' ∧ same_store w w' ∧
    trace w' = trace w ++ evs ∧ Forall (send_event (mgr w)) evs.
Proof.
  revert w. induction h as [|msg net_ok k IH]; intros w.
  - exists w, []. split; [done|]. split; [apply same_store_refl|].
    split; [by rewrite app_nil_r | constructor].
  - destruct (Send_events msg net_ok w) as (e & w1 & evs1 & Hs & Hsame1 & Ht1 & Hev1).
    destruct (IH e w1) as (w2 & evs2 & Hr & Hsame2 & Ht2 & Hev2).
    exists w2, (evs1 ++ evs2). simpl. unfold mbind, M_bind. rewrite Hs.
    split; [exact Hr|]. split; [by eapply same_store_trans|].
    split; [by rewrite Ht2, Ht1, app_assoc|].
    apply Forall_app. split; [done|].
    destruct Hsame1 as (Hm & _). by rewrite <- Hm.
Qed.

Lemma call_messageHandler_events (msg : NymReceived) (w : World) :
  ∃ w' evs, call_messageHandler msg w = Done tt w' ∧ same_store w w' ∧
    trace w' = trace w ++ EvHandler msg :: evs ∧
    Forall (send_event (mgr w)) evs.
Proof.
  unfold call_messageHandler, getTrace. unfold_m.
  match goal with
  | |- context [runHandler ?h ?w0] =>
      destruct (runHandler_events h w0) as (w' & evs & Hr & Hsame & Ht & Hev)
  end.
  exists w', evs. split; [exact Hr|]. split; [exact Hsame|].
  split; [by rewrite Ht; simpl; rewrite <- app_assoc | exact Hev].
Qed.

#[local] Arguments call_messageHandler : simpl never.

(** The handler's run, replaced by what is known of it. *)
Ltac handler_returns :=
  match goal with
  | |- context [call_messageHandler ?m ?w0] =>
      let wh := fresh "wh" in
      let evs := fresh "evs" in
      let Hev := fresh "Hev" in
      let Htr := fresh "Htr" in
      destruct (call_messageHandler_events m w0)
        as (wh & evs & -> & (? & ? & ? & ?) & Htr & Hev);
      destruct wh; simpl in *; subst
  end.

(** Case analysis on every match the goal or a hypothesis is stuck on. *)
Ltac crunch :=
  repeat (simpl in *; simplify_eq;
    match goal with
    | |- context [call_messageHandler _ _] => handler_returns
    | |- context [match ?x with _ => _ end] => destruct x eqn:?
    | H : context [match ?x with _ => _ end] |- _ => destruct x eqn:?
    end);
  simpl in *; simplify_eq.

(** C4: [Start] on a manager whose connection is set returns (nil, nil)
    at once: no dial, no write, no channel made; the manager, the channels
    and the connections are as before and the only output is the two log
    lines. *)
Theorem Start_already_running (env : StartEnv) (w : World) (c : conn_ref) :
  connection (mgr w) = Some c →
  ∃ w', Start env w = Done (None, None) w' ∧
        same_store w w' ∧
        trace w' = trace w ++
          [EvLog LvDebug "starting NymSocketManager";
           EvLog LvWarn "connection to websocket %s already established. Resuming..."] ∧
        effects (trace w') = effects (trace w).
Proof.
  intros Hc. open_world w. subst n_conn.
  eexists. split; [reflexivity|]. simpl.
  split; [by repeat split|]. split; [by rewrite <- app_assoc|].
  rewrite !effects_app. simpl. by rewrite !app_nil_r.
Qed.

(** A manager on which [Stop] does nothing: no connection, or no
    stopped-notification channel. *)
Lemma Stop_settled (env : TeardownEnv) (w : World) :
  connection (mgr w) = None ∨ selfInstanceStoppedChan (mgr w) = None →
  ∃ w', Stop env w = Done tt w' ∧ same_store w w' ∧
        effects (trace w') = effects (trace w).
Proof.
  intros Hs. open_world w.
  destruct n_conn as [c|].
  - destruct Hs as [? | ->]; [done|].
    eexists. split; [reflexivity|]. simpl. split; [by repeat split|].
    rewrite !effects_app. simpl. by rewrite !app_nil_r.
  - eexists. split; [reflexivity|]. simpl. split; [by repeat split|].
    rewrite !effects_app. simpl. by rewrite !app_nil_r.
Qed.

Lemma Stop_settles (env : TeardownEnv) (w w1 : World) :
  Stop env w = Done tt w1 →
  connection (mgr w1) = None ∨ selfInstanceStoppedChan (mgr w1) = None.
Proof.
  open_world w. unfold Stop, selfDestruct, sendCloseSignal. unfold_m.
  intros H. crunch; auto.
Qed.

Lemma stopAll_settled (envs : list TeardownEnv) (w : World) :
  connection (mgr w) = None ∨ selfInstanceStoppedChan (mgr w) = None →
  ∃ w', stopAll envs w = Done tt w' ∧ same_store w w' ∧
        effects (trace w') = effects (trace w).
Proof.
  revert w. induction envs as [|env envs IH]; intros w Hs.
  - exists w. split; [done|]. split; [apply same_store_refl | done].
  - destruct (Stop_settled env w Hs) as (w1 & Hstop & Hsame & Heff).
    assert (Hs1 : connection (mgr w1) = None ∨ selfInstanceStoppedChan (mgr w1) = None).
    { destruct Hsame as (-> & _). done. }
    destruct (IH w1 Hs1) as (w2 & Hall & Hsame2 & Heff2).
    exists w2. split.
    + simpl. unfold mbind, M_bind. by rewrite Hstop.
    + split; [by eapply same_store_trans | congruence].
Qed.

(** C5: [Stop] on a manager without connection returns at once, leaving
    the manager, the channels and the connections untouched (its only
    output is the debug line); and once one [Stop] has returned, every
    further [Stop] of a sequence changes nothing and makes no call on the
    connection or on a channel. *)
Theorem Stop_idempotent :
  (∀ (env : TeardownEnv) (w : World),
     connection (mgr w) = None →
     ∃ w', Stop env w = Done tt w' ∧ same_store w w' ∧
           trace w' = trace w ++ [EvLog LvDebug "stopping NymSocketManager"]) ∧
  (∀ (env : TeardownEnv) (w w1 : World) (envs : list TeardownEnv),
     Stop env w = Done tt w1 →
     ∃ w2, stopAll envs w1 = Done tt w2 ∧ same_store w1 w2 ∧
           effects (trace w2) = effects (trace w1)).
Proof.
  split.
  - intros env w Hc. open_world w. subst n_conn.
    eexists. split; [reflexivity|]. by repeat split.
  - intros env w w1 envs Hstop.
    apply stopAll_settled. by eapply Stop_settles.
Qed.

(** C9: a frame that does not parse, has no "type" member, has a
    discriminator the dispatcher does not know, or is an error reply (also
    one that then fails to decode) is logged and dropped: the dispatcher
    returns, the trace gains one log line and nothing else (so the
    application handler is not called), and the manager, the channels and
    the connections are as before; [IsRunning] answers as it did. *)
Theorem messageDispatcher_drops (s : list byte) (w : World) :
  frameKind s = Unparseable ∨ frameKind s = NoDiscriminator ∨
  frameKind s = Unrecognized ∨ frameKind s = ErrorReply →
  ∃ w' lvl format,
    messageDispatcher s w = Done tt w' ∧
    same_store w w' ∧
    trace w' = trace w ++ [EvLog lvl format] ∧
    result (IsRunning w') = result (IsRunning w).
Proof.
  unfold frameKind, messageDispatcher. intros Hk.
  destruct (json_Unmarshal_map s) as [m|]; [destruct (m !! "type") as [ty|]|].
  - destruct (iface_is_string ty NymSelfAddressReplyType);
      [by destruct Hk as [?|[?|[?|?]]]|].
    destruct (iface_is_string ty NymErrorType).
    + destruct (json_Unmarshal_Error s);
        (eexists _, _, _; split; [reflexivity|]; by repeat split).
    + destruct (iface_is_string ty NymReceivedType);
        [by destruct Hk as [?|[?|[?|?]]]|].
      eexists _, _, _. split; [reflexivity|]. by repeat split.
  - eexists _, _, _. split; [reflexivity|]. by repeat split.
  - eexists _, _, _. split; [reflexivity|]. by repeat split.
Qed.

(** ** Computations that do not assign [clientID] *)

Lemma keeps_id_bind {A B} (m : M A) (f : A → M B) :
  keeps_id m → (∀ a, keeps_id (f a)) → keeps_id (m ≫= f).
Proof.
  intros Hm Hf w. unfold mbind, M_bind. specialize (Hm w).
  destruct (m w) as [a w1|r w1]; simpl in *; [|done].
  by rewrite Hf.
Qed.

(** Splits a computation at its binds and matches; the leaves are
    primitives, which are checked by running them. *)
Ltac keeps_id_tac :=
  repeat first
    [ assumption
    | apply keeps_id_bind; [|intros ?]
    | match goal with
      | |- keeps_id (match ?x with _ => _ end) => destruct x
      end
    | by intros [[]]
    | solve [ intros [[]]; unfold_m;
              repeat (simpl; match goal with
                             | |- context [match ?x with _ => _ end] => destruct x
                             end); done ] ].

(** [selfDestruct] has no assignment to [clientID], whatever path it takes
    (also when it panics). *)
Lemma selfDestruct_clientID (env : TeardownEnv) :
  keeps_id (selfDestruct env : M unit).
Proof. unfold selfDestruct, sendCloseSignal. keeps_id_tac. Qed.

Lemma Stop_clientID (env : TeardownEnv) : keeps_id (Stop env : M unit).
Proof.
  pose proof (selfDestruct_clientID env). unfold Stop. keeps_id_tac.
Qed.

(** The two calls [selfDestruct] makes before it closes anything. *)
Lemma sendCloseSignal_connected (net_ok : bool) (w : World) (c : conn_ref) :
  connection (mgr w) = Some c →
  ∃ written e logline,
    sendCloseSignal net_ok w =
      Done e (mkWorld (mgr w) (chans w) (conns w) (listeners w)
                (trace w ++ [EvWriteClose c written; logline])) ∧
    is_log logline = true.
Proof.
  intros Hc. unfold sendCloseSignal. unfold_m. rewrite Hc. simpl.
  destruct (net_ok && bool_decide (conns w !! c = Some ConnOpen));
    eexists _, _, _; simpl; rewrite <- app_assoc; simpl; by split.
Qed.

Lemma awaitListenerClosed_other (lch : option chan_ref) (acks : bool)
    (w : World) (sc : chan_ref) :
  chans w !! sc = Some ChOpen →
  lch ≠ Some sc →
  ∃ waited chs',
    awaitListenerClosed lch acks w =
      Done waited (mkWorld (mgr w) chs' (conns w) (listeners w)
                     (trace w ++ [EvAwaitListenerClosed lch waited])) ∧
    chs' !! sc = Some ChOpen ∧ length chs' = length (chans w).
Proof.
  intros Hopen Hne. unfold awaitListenerClosed, chan_closed.
  destruct lch as [lc|]; [|by eexists _, _].
  destruct (bool_decide (chans w !! lc = Some ChClosed)); [by eexists _, _|].
  destruct acks; [|by eexists _, _].
  eexists _, _. split; [reflexivity|]. split; [|by rewrite length_insert].
  rewrite list_lookup_insert_ne; [done | congruence].
Qed.

(** What a completed teardown of a [Ready] manager looks like. *)
Lemma selfDestruct_Ready (env : TeardownEnv) (w : World) (c : conn_ref)
    (l : listener_ref) (stopped : chan_ref) :
  connection (mgr w) = Some c →
  socketListener (mgr w) = Some l →
  selfInstanceStoppedChan (mgr w) = Some stopped →
  chans w !! stopped = Some ChOpen →
  closedSocketListenerChan (mgr w) ≠ Some stopped →
  ∃ w' written waited evs,
    selfDestruct env w = Done tt w' ∧
    trace w' = trace w ++ evs ∧
    effects evs =
      [EvWriteClose c written;
       EvAwaitListenerClosed (closedSocketListenerChan (mgr w)) waited;
       EvConnClose c (conn_close_ok env);
       EvChanClose stopped] ∧
    mgr w' = set_selfInstanceStoppedChan None
               (set_connection None (set_socketListener None (mgr w))) ∧
    conns w' = <[c := ConnClosed]> (conns w) ∧
    chans w' !! stopped = Some ChClosed.
Proof.
  intros Hc Hl Hsc Hopen Hne.
  unfold selfDestruct. unfold mbind, M_bind, log, emit, getMgr, modMgr, mret, M_ret.
  simpl. cbn [mgr chans conns listeners trace]. rewrite Hsc, Hl.
  match goal with
  | |- context [sendCloseSignal ?b ?w0] =>
      destruct (sendCloseSignal_connected b w0 c Hc)
        as (written & e & logline & -> & Hlog)
  end.
  cbn [mgr chans conns listeners trace].
  match goal with
  | |- context [awaitListenerClosed ?lch ?b ?w1] =>
      destruct (awaitListenerClosed_other lch b w1 stopped Hopen Hne)
        as (waited & chs' & -> & Hopen' & Hlen)
  end.
  assert (Hclosed : <[stopped := ChClosed]> chs' !! stopped = Some ChClosed).
  { apply list_lookup_insert_eq. by eapply lookup_lt_Some. }
  destruct logline as [lvl format| | | | | | | | | | |]; try done.
  unfold ConnClose, close_chan.
  destruct waited; simpl in *; rewrite Hc; simpl in *;
    destruct (conn_close_ok env); simpl in *; rewrite Hsc; simpl in *;
    rewrite Hopen'; simpl in *;
    (eexists _, written, _, _; split; [reflexivity|]; simpl;
     split; [by rewrite <- ?app_assoc; simpl|];
     split; [reflexivity|]; by repeat split).
Qed.

Lemma Stop_Ready (env : TeardownEnv) (w : World) (c : conn_ref)
    (l : listener_ref) (stopped : chan_ref) :
  connection (mgr w) = Some c →
  socketListener (mgr w) = Some l →
  selfInstanceStoppedChan (mgr w) = Some stopped →
  chans w !! stopped = Some ChOpen →
  closedSocketListenerChan (mgr w) ≠ Some stopped →
  ∃ w', Stop env w = Done tt w' ∧ torn_down env c stopped w w'.
Proof.
  intros Hc Hl Hsc Hopen Hne.
  set (w0 := mkWorld (mgr w) (chans w) (conns w) (listeners w)
               (trace w ++ [EvLog LvDebug "stopping NymSocketManager"])).
  destruct (selfDestruct_Ready env w0 c l stopped Hc Hl Hsc Hopen Hne)
    as (w1 & written & waited & evs & Hsd & Htr & Heff & Hmgr & Hconns & Hch).
  exists (mkWorld (mgr w1) (chans w1) (conns w1) (listeners w1)
            (trace w1 ++ [EvLog LvDebug "stopped NymSocketManager"])).
  split.
  - unfold Stop. unfold_m. simpl. rewrite Hc. fold w0. by rewrite Hsd.
  - exists written, waited,
      ([EvLog LvDebug "stopping NymSocketManager"] ++ evs ++
       [EvLog LvDebug "stopped NymSocketManager"]).
    simpl. rewrite Htr. simpl. split; [by rewrite <- !app_assoc|].
    split; [|done].
    unfold effects in *. simpl. rewrite List.filter_app. simpl.
    by rewrite app_nil_r.
Qed.

(** Teardown of a manager that a successful [Start] left [Ready]
    (connection [c], stopped-notification channel [sc]), run directly or
    through [Stop], returns for every environment (also when the close
    frame cannot be written and the receive loop never acknowledges), and
    the calls it makes besides logging are exactly: the close frame on [c],
    the wait for the receive loop's channel, [c.Close()], [close(sc)], each
    once and in that order; connection, receive loop and channel handles
    are nil afterwards. *)
Theorem teardown_order (env : TeardownEnv) (w : World) (c : conn_ref) (sc : chan_ref) :
  Ready w →
  connection (mgr w) = Some c →
  selfInstanceStoppedChan (mgr w) = Some sc →
  (∃ w', selfDestruct env w = Done tt w' ∧ torn_down env c sc w w') ∧
  (∃ w', Stop env w = Done tt w' ∧ torn_down env c sc w w').
Proof.
  intros (c' & l & sc' & Hc' & Hl & Hsc' & Hopen & Hne) Hc Hsc.
  assert (c' = c) by congruence. assert (sc' = sc) by congruence.
  subst c' sc'. split.
  - destruct (selfDestruct_Ready env w c l sc Hc Hl Hsc Hopen Hne)
      as (w' & written & waited & evs & Hsd & Hrest).
    exists w'. split; [done|]. by exists written, waited, evs.
  - by eapply Stop_Ready.
Qed.

(** C10: neither [selfDestruct] nor [Stop] assigns [clientID], on any
    path; after [Stop] has torn down a [Ready] manager, [IsRunning] answers
    false and [GetNymClientId] still returns the identity of the ended
    session. *)
Theorem teardown_keeps_clientID (env : TeardownEnv) (w : World) :
  clientID (mgr (world_of (selfDestruct env w))) = clientID (mgr w) ∧
  clientID (mgr (world_of (Stop env w))) = clientID (mgr w) ∧
  (Ready w →
   ∃ w', Stop env w = Done tt w' ∧
         result (IsRunning w') = Some false ∧
         result (GetNymClientId w') = Some (clientID (mgr w))).
Proof.
  split; [apply selfDestruct_clientID|]. split; [apply Stop_clientID|].
  intros (c & l & sc & Hc & Hl & Hsc & Hopen & Hne).
  destruct (Stop_Ready env w c l sc Hc Hl Hsc Hopen Hne)
    as (w' & Hstop & _ & _ & _ & _ & _ & Hmgr & _).
  exists w'. split; [done|].
  unfold IsRunning, GetNymClientId. unfold_m. rewrite Hmgr. simpl.
  by split.
Qed.

(** ** The dispatcher and the identity *)

Lemma dispatch_frame_refl (w : World) : dispatch_frame w w.
Proof. by repeat split. Qed.

Lemma dispatch_frame_trans (w1 w2 w3 : World) :
  dispatch_frame w1 w2 → dispatch_frame w2 w3 → dispatch_frame w1 w3.
Proof.
  intros (?&?&?&?&?&?&?&?&?) (?&?&?&?&?&?&?&?&?).
  repeat split; congruence.
Qed.

Lemma messageDispatcher_frame (s : list byte) (w : World) :
  dispatch_frame w (world_of (messageDispatcher s w)).
Proof.
  open_world w. unfold messageDispatcher. unfold_m.
  crunch; repeat split; simpl; by rewrite ?length_insert.
Qed.

Lemma dispatchAll_frame (fs : list (list byte)) (w : World) :
  dispatch_frame w (world_of (dispatchAll fs w)).
Proof.
  revert w. induction fs as [|s fs IH]; intros w; [apply dispatch_frame_refl|].
  simpl. unfold mbind, M_bind.
  pose proof (messageDispatcher_frame s w) as Hs.
  destruct (messageDispatcher s w) as [[] w1|r w1]; simpl in *; [|done].
  eapply dispatch_frame_trans; [exact Hs | apply IH].
Qed.

(** An identity reply that decodes stores its address, whether or not a
    [Start] is waiting for it (and also when closing the signal panics). *)
Lemma messageDispatcher_identity (s : list byte) (a : string) (w : World) :
  identityOf s = Some a →
  clientID (mgr (world_of (messageDispatcher s w))) = a.
Proof.
  unfold identityOf, frameKind, messageDispatcher. unfold_m. intros Hs.
  open_world w. crunch; done.
Qed.

(** Every other frame leaves the manager and the channels alone. *)
Lemma messageDispatcher_other (s : list byte) (w : World) :
  identityOf s = None →
  ∃ w', messageDispatcher s w = Done tt w' ∧ same_store w w'.
Proof.
  unfold identityOf, frameKind, messageDispatcher. unfold_m. intros Hs.
  open_world w. crunch; eexists; (split; [reflexivity|]); by repeat split.
Qed.

Lemma lastIdentity_cons (s : list byte) (fs : list (list byte)) :
  lastIdentity (s :: fs) =
  match lastIdentity fs with Some a => Some a | None => identityOf s end.
Proof.
  unfold lastIdentity. simpl.
  change (list_omap _ _ identityOf fs) with (omap identityOf fs).
  destruct (identityOf s) as [a|].
  - rewrite last_cons. by destruct (last (omap identityOf fs)).
  - by destruct (last (omap identityOf fs)).
Qed.

Lemma lastIdentity_app (fs1 fs2 : list (list byte)) :
  lastIdentity (fs1 ++ fs2) =
  match lastIdentity fs2 with Some a => Some a | None => lastIdentity fs1 end.
Proof.
  induction fs2 as [|s fs2 IH] using rev_ind.
  - by rewrite app_nil_r.
  - rewrite app_assoc. unfold lastIdentity in *.
    rewrite !omap_app. simpl. destruct (identityOf s) as [a|]; simpl.
    + by rewrite !last_snoc.
    + rewrite !app_nil_r, <- omap_app. exact IH.
Qed.

Lemma dispatchAll_no_identity (fs : list (list byte)) (w : World) :
  lastIdentity fs = None →
  ∃ w', dispatchAll fs w = Done tt w' ∧ same_store w w'.
Proof.
  revert w. induction fs as [|s fs IH]; intros w Hn.
  - exists w. split; [done | apply same_store_refl].
  - rewrite lastIdentity_cons in Hn.
    destruct (lastIdentity fs) eqn:Hfs; [done|].
    destruct (messageDispatcher_other s w Hn) as (w1 & Hs & Hsame).
    destruct (IH w1 eq_refl) as (w2 & Hall & Hsame2).
    exists w2. split; [|by eapply same_store_trans].
    simpl. unfold mbind, M_bind. by rewrite Hs.
Qed.

(** After the frames [fs] have been dispatched, the identity is the address
    of the last identity reply among them, or what it was when there is
    none. *)
Lemma dispatchAll_clientID (fs : list (list byte)) (w w' : World) :
  dispatchAll fs w = Done tt w' →
  clientID (mgr w') = default (clientID (mgr w)) (lastIdentity fs).
Proof.
  revert w. induction fs as [|s fs IH]; intros w Hd.
  - by injection Hd as <-.
  - simpl in Hd. unfold mbind, M_bind in Hd.
    destruct (messageDispatcher s w) as [[] w1|r w1] eqn:Hs; [|done].
    rewrite (IH w1 Hd), lastIdentity_cons.
    destruct (lastIdentity fs) as [a|]; [done|]. simpl.
    destruct (identityOf s) as [a|] eqn:Hid; simpl.
    + pose proof (messageDispatcher_identity s a w Hid) as Ha.
      by rewrite Hs in Ha.
    + destruct (messageDispatcher_other s w Hid) as (w2 & Hs2 & Hsame & _).
      rewrite Hs in Hs2. injection Hs2 as <-. by rewrite Hsame.
Qed.

(** ** [Start] *)

(** The path of [Start] that returns a channel. *)
Lemma Start_success (env : StartEnv) (w : World) (sc : chan_ref) (w1 : World) :
  Start env w = Done (Some sc, None) w1 →
  clientID (mgr w1) = default (clientID (mgr w)) (lastIdentity (frames env)) ∧
  lastIdentity (frames env) ≠ None ∧
  Ready w1 ∧
  selfAddressReceivedChan (mgr w1) = None.
Proof.
  intros H. open_world w. unfold Start, Send in H. unfold_m in H.
  crunch. simpl in *.
  repeat match goal with u : unit |- _ => destruct u end.
  match goal with
  | Hd : dispatchAll _ ?w0 = Done _ ?wd |- _ =>
      pose proof (dispatchAll_frame (frames env) w0) as Hfr;
      pose proof (dispatchAll_clientID _ _ _ Hd) as Hid;
      pose proof (dispatchAll_no_identity (frames env) w0) as Hno;
      rewrite Hd in Hfr, Hno; simpl in *
  end.
  destruct Hfr as (Huri & Hconn & Hsc & Hsl & Hlch & Hach & Hlen & Hcns & Hls).
  cbv [set_clientID set_connection set_selfInstanceStoppedChan set_socketListener
       set_closedSocketListenerChan set_selfAddressReceivedChan] in *.
  simpl in *.
  match goal with
  | Hr : selfAddressReceivedChan (mgr ?wd) = Some ?c1 |- _ =>
      assert (c1 = length (chs ++ [ChOpen])) as -> by congruence
  end.
  match goal with
  | Hb : _ && _ = true |- _ =>
      apply andb_true_iff in Hb as [Hclosed%bool_decide_eq_true _]
  end.
  assert (Hsome : lastIdentity (frames env) ≠ None).
  { intros Hn. destruct (Hno Hn) as (w' & Hw' & _ & Hch & _).
    injection Hw' as <-. simpl in Hch. rewrite Hch in Hclosed.
    rewrite lookup_app_r in Hclosed by done.
    by rewrite Nat.sub_diag in Hclosed. }
  split; [done|]. split; [done|]. split; [|done].
  match goal with
  | _ : dispatchAll _ _ = Done _ ?wd |- _ =>
      exists (length cns), ls, (length (chans wd))
  end.
  simpl. rewrite Hconn, Hsl, Hlch. repeat split; try done.
  - by rewrite lookup_app_r, Nat.sub_diag.
  - rewrite Hlen, !length_app. simpl. intros [=]. lia.
Qed.

(** C7: when [Start] has returned a channel and no error, and whatever
    frames have been dispatched since, [GetNymClientId] returns the address
    of the most recent identity reply received (one exists: [Start] only
    succeeds on receiving one). *)
Theorem GetNymClientId_after_Start (env : StartEnv) (w w1 w2 : World)
    (sc : chan_ref) (later : list (list byte)) :
  Start env w = Done (Some sc, None) w1 →
  dispatchAll later w1 = Done tt w2 →
  ∃ a, lastIdentity (frames env ++ later) = Some a ∧
       result (GetNymClientId w2) = Some a.
Proof.
  intros Hstart Hlater.
  destruct (Start_success env w sc w1 Hstart) as (Hid & Hsome & _ & _).
  pose proof (dispatchAll_clientID later w1 w2 Hlater) as Hid2.
  rewrite lastIdentity_app. unfold GetNymClientId. unfold_m. simpl.
  destruct (lastIdentity (frames env)) as [a0|]; [|done].
  destruct (lastIdentity later) as [a|]; simpl in *.
  - exists a. by rewrite Hid2.
  - exists a0. by rewrite Hid2, Hid.
Qed.

(** ** Who writes the identity *)

Lemma keeps_id_dispatchAll (fs : list (list byte)) :
  lastIdentity fs = None → keeps_id (dispatchAll fs).
Proof.
  intros Hn w. destruct (dispatchAll_no_identity fs w Hn) as (w' & Hd & Hm & _).
  rewrite Hd. simpl. by rewrite Hm.
Qed.

Lemma keeps_id_Send (msg : NymMessage) (net_ok : bool) : keeps_id (Send msg net_ok).
Proof. unfold Send. keeps_id_tac. Qed.

Lemma keeps_id_Start (env : StartEnv) :
  lastIdentity (frames env) = None → keeps_id (Start env).
Proof.
  intros Hn. pose proof (keeps_id_dispatchAll _ Hn). unfold Start. keeps_id_tac.
Qed.

(** ** Failing [Start]s *)

(** The guard at the head of [selfDestruct]. *)
Lemma selfDestruct_guard (env : TeardownEnv) (w : World) :
  selfInstanceStoppedChan (mgr w) = None →
  selfDestruct env w =
    Done tt (mkWorld (mgr w) (chans w) (conns w) (listeners w)
               (trace w ++ [EvLog LvDebug "selfDestructing";
                            EvLog LvDebug "already selfDestructed"])).
Proof.
  intros Hsc. unfold selfDestruct. unfold_m. simpl. rewrite Hsc. simpl.
  by rewrite <- app_assoc.
Qed.

(** Unfolds a returned [Start] into its paths; what is known about the
    world after the dispatched frames is added to the context. *)
Ltac Start_paths H env :=
  unfold Start, Send in H; unfold_m in H;
  crunch; simpl in *;
  repeat match goal with u : unit |- _ => destruct u end;
  try match goal with
  | Hd : dispatchAll _ ?w0 = _ |- _ =>
      let Hfr := fresh "Hfr" in
      pose proof (dispatchAll_frame (frames env) w0) as Hfr;
      rewrite Hd in Hfr; simpl in *;
      destruct Hfr as (Huri & Hconn & Hsc & Hsl & Hlch & Hach & Hlen & Hcns & Hls)
  end;
  try match goal with
  | Hs : selfDestruct _ _ = _ |- _ => rewrite selfDestruct_guard in Hs by done
  end;
  simplify_eq; simpl in *.

(** Whenever [Start] has dialled and then fails, on a manager that has no
    stopped-notification channel, its call of [selfDestruct] stops at the
    guard: the connection stays open and stays in the manager. *)
Lemma Start_failure_after_dial (env : StartEnv) (w w' : World) (e : error) :
  connection (mgr w) = None →
  selfInstanceStoppedChan (mgr w) = None →
  Start env w = Done (None, Some e) w' →
  e ≠ ErrOpenConnection →
  ∃ c, connection (mgr w') = Some c ∧ conns w' !! c = Some ConnOpen ∧
       result (IsRunning w') = Some true.
Proof.
  intros Hc Hsc H He. open_world w. subst n_conn n_sc.
  Start_paths H env.
  all: exists (length cns); rewrite ?Hconn, ?Hcns; simpl.
  all: split; [done|]; split; [by rewrite lookup_app_r, Nat.sub_diag | done].
Qed.

Lemma no_stale_channel_Stop (env : TeardownEnv) (w w' : World) :
  Stop env w = Done tt w' → no_stale_channel w → no_stale_channel w'.
Proof.
  unfold no_stale_channel. open_world w.
  unfold Stop, selfDestruct, sendCloseSignal. unfold_m.
  intros H Hinv. crunch; auto.
Qed.

Lemma no_stale_channel_dispatch (s : list byte) (w w' : World) :
  messageDispatcher s w = Done tt w' → no_stale_channel w → no_stale_channel w'.
Proof.
  unfold no_stale_channel. intros H Hinv.
  pose proof (messageDispatcher_frame s w) as Hfr. rewrite H in Hfr.
  destruct Hfr as (_ & Hc & Hsc & _). simpl in *. rewrite Hc, Hsc. done.
Qed.

Lemma no_stale_channel_Send (msg : NymMessage) (net_ok : bool)
    (w w' : World) (e : option error) :
  Send msg net_ok w = Done e w' → no_stale_channel w → no_stale_channel w'.
Proof.
  unfold no_stale_channel. open_world w. unfold Send. unfold_m.
  intros H Hinv. crunch; auto.
Qed.

Lemma no_stale_channel_Start (env : StartEnv) (w w' : World)
    (r : option chan_ref * option error) :
  Start env w = Done r w' → no_stale_channel w → no_stale_channel w'.
Proof.
  unfold no_stale_channel. open_world w. intros H Hinv.
  destruct n_conn as [c|].
  - unfold Start in H. unfold_m in H. simpl in H. by simplify_eq.
  - specialize (Hinv eq_refl). subst.
    Start_paths H env; try done; congruence.
Qed.

Lemma bind_Done {A B} (m : M A) (f : A → M B) (w w' : World) (b : B) :
  (m ≫= f) w = Done b w' → ∃ a w1, m w = Done a w1 ∧ f a w1 = Done b w'.
Proof.
  unfold mbind, M_bind. destruct (m w) as [a w1|]; [|done]. by exists a, w1.
Qed.

Lemma no_stale_channel_call (o : Op) (w w' : World) :
  call o w = Done tt w' → no_stale_channel w → no_stale_channel w'.
Proof.
  destruct o as [env|env|msg ok|s| |]; simpl; intros H Hinv.
  - apply bind_Done in H as (r & w1 & H1 & [= <-]).
    by eapply no_stale_channel_Start.
  - by eapply no_stale_channel_Stop.
  - apply bind_Done in H as (r & w1 & H1 & [= <-]).
    by eapply no_stale_channel_Send.
  - by eapply no_stale_channel_dispatch.
  - by injection H as <-.
  - by injection H as <-.
Qed.

(** On every state a manager reaches, a stopped-notification channel
    implies a connection. *)
Lemma no_stale_channel_run (ops : list Op) (w w' : World) :
  run ops w = Done tt w' → no_stale_channel w → no_stale_channel w'.
Proof.
  revert w. induction ops as [|o ops IH]; intros w H Hinv.
  - by injection H as <-.
  - simpl in H. apply bind_Done in H as ([] & w1 & H1 & H2).
    eapply IH; [done|]. by eapply no_stale_channel_call.
Qed.

(** So after any history of calls on a new manager, a [Start] that opens
    the connection and then fails (for any of its three reasons) leaves
    the connection open and [IsRunning] true. *)
Lemma failed_Start_keeps_running (uri : string) (n : NymSocketManager)
    (history : list Op) (env : StartEnv) (w w' : World) (e : error) :
  NewNymSocketManager uri true true = Valid n →
  run history (initWorld n) = Done tt w →
  connection (mgr w) = None →
  Start env w = Done (None, Some e) w' →
  e ≠ ErrOpenConnection →
  ∃ c, connection (mgr w') = Some c ∧ conns w' !! c = Some ConnOpen ∧
       result (IsRunning w') = Some true.
Proof.
  intros Hnew Hrun Hc Hstart He.
  eapply Start_failure_after_dial; [done| |done|done].
  eapply no_stale_channel_run; [exact Hrun| |done].
  unfold NewNymSocketManager in Hnew. intros _.
  repeat case_match; by simplify_eq.
Qed.

(** ** Two identity replies in a row *)

Lemma messageDispatcher_signals (s : list byte) (a : string) (w : World)
    (ch : chan_ref) :
  identityOf s = Some a →
  selfAddressReceivedChan (mgr w) = Some ch →
  match messageDispatcher s w with
  | Done _ w' =>
      chans w !! ch = Some ChOpen ∧ chans w' !! ch = Some ChClosed ∧
      selfAddressReceivedChan (mgr w') = Some ch
  | Panic _ _ => chans w !! ch ≠ Some ChOpen
  end.
Proof.
  unfold identityOf, frameKind, messageDispatcher. unfold_m. intros Hs Hch.
  open_world w. subst. crunch; try done.
  split; [done|]. split; [|done].
  apply list_lookup_insert_eq. by eapply lookup_lt_Some.
Qed.

(** Whenever the identity-received channel is set, whatever its state,
    dispatching two identity replies one after the other panics: the first
    closes the channel without clearing the field (or meets it closed), the
    second closes it again. *)
Lemma two_identity_replies_panic (s1 s2 : list byte) (a1 a2 : string)
    (w : World) (ch : chan_ref) :
  identityOf s1 = Some a1 →
  identityOf s2 = Some a2 →
  selfAddressReceivedChan (mgr w) = Some ch →
  ∃ reason w', dispatchAll [s1; s2] w = Panic reason w'.
Proof.
  intros H1 H2 Hch. simpl. unfold mbind, M_bind.
  pose proof (messageDispatcher_signals s1 a1 w ch H1 Hch) as Hfirst.
  destruct (messageDispatcher s1 w) as [[] w1|r w1]; [|by eexists _, _].
  destruct Hfirst as (_ & Hclosed & Hch1).
  pose proof (messageDispatcher_signals s2 a2 w1 ch H2 Hch1) as Hsecond.
  destruct (messageDispatcher s2 w1) as [[] w2|r w2]; [|by eexists _, _].
  destruct Hsecond as (Hopen & _). congruence.
Qed.

(** C3 (amended): the identity is empty on a new manager and is what
    [GetNymClientId] returns; every identity reply that decodes overwrites
    it with its address, whenever it is dispatched, also after [Start] has
    completed; a [Start] that returns a channel leaves the address of the
    last identity reply of its handshake; and nothing else assigns it: no
    other frame, no [Start] during which no identity reply is dispatched,
    no [Stop], [Send], [IsRunning] or [GetNymClientId]. *)
Theorem identity_written_by_identity_replies :
  (∀ (uri : string) (handler logger : bool) (n : NymSocketManager),
     NewNymSocketManager uri handler logger = Valid n →
     result (GetNymClientId (initWorld n : World)) = Some "") ∧
  (∀ w : World, GetNymClientId w = Done (clientID (mgr w)) w) ∧
  (∀ (s : list byte) (a : string) (w : World),
     identityOf s = Some a →
     clientID (mgr (world_of (messageDispatcher s w))) = a) ∧
  (∀ (env : StartEnv) (w w1 : World) (sc : chan_ref),
     Start env w = Done (Some sc, None) w1 →
     ∃ a, lastIdentity (frames env) = Some a ∧ clientID (mgr w1) = a) ∧
  (∀ s : list byte, identityOf s = None → keeps_id (messageDispatcher s)) ∧
  (∀ env : StartEnv, lastIdentity (frames env) = None → keeps_id (Start env)) ∧
  (∀ env : TeardownEnv, keeps_id (Stop env : M unit)) ∧
  (∀ (msg : NymMessage) (net_ok : bool), keeps_id (Send msg net_ok)) ∧
  keeps_id (IsRunning : M bool) ∧ keeps_id (GetNymClientId : M string).
Proof.
  repeat split.
  - intros uri handler logger n Hnew. unfold NewNymSocketManager in Hnew.
    repeat case_match; by simplify_eq.
  - apply messageDispatcher_identity.
  - intros env w w1 sc Hstart.
    destruct (Start_success env w sc w1 Hstart) as (Hid & Hsome & _).
    destruct (lastIdentity (frames env)) as [a|]; [|done]. by exists a.
  - intros s Hs w. destruct (messageDispatcher_other s w Hs) as (w' & Hd & Hm & _).
    rewrite Hd. simpl. by rewrite Hm.
  - apply keeps_id_Start.
  - apply Stop_clientID.
  - apply keeps_id_Send.
Qed.

(** * Further properties of the code *)

(** ** The constructor *)

(** [NewNymSocketManager] (lines 18-41) returns a manager exactly when the
    URI is not empty and the handler and the logger are not nil; an empty
    URI is the error reported whatever the other two are.  The manager it
    returns keeps the URI, is not running and has the empty identity. *)
Theorem NewNymSocketManager_contract (uri : string) (handler logger : bool) :
  (uri = "" → NewNymSocketManager uri handler logger =
               Invalid "connection URI cannot be empty") ∧
  (∀ n, NewNymSocketManager uri handler logger = Valid n ↔
        uri ≠ "" ∧ handler = true ∧ logger = true ∧
        n = mkManager "" uri None None None None None) ∧
  (∀ n, NewNymSocketManager uri handler logger = Valid n →
        result (IsRunning (initWorld n : World)) = Some false ∧
        result (GetNymClientId (initWorld n : World)) = Some "").
Proof.
  unfold NewNymSocketManager.
  assert (Hlen : String.length uri = 0 ↔ uri = "") by (by destruct uri).
  split; [|split].
  - by intros ->.
  - intros n. case_bool_decide as Hu.
    + apply Hlen in Hu. split; [done | by intros (? & _)].
    + assert (uri ≠ "") by (by rewrite <- Hlen).
      destruct handler, logger; simpl;
        (split; [intros [= <-] || intros [=] | intros (_ & ? & ? & ->)]; done).
  - intros n. repeat case_match; by intros [= <-].
Qed.

(** ** What the dispatcher hands to the application *)

Lemma handlerCalls_app (t1 t2 : list Event) :
  handlerCalls (t1 ++ t2) = handlerCalls t1 ++ handlerCalls t2.
Proof. apply omap_app. Qed.

Lemma textWrites_app (t1 t2 : list Event) :
  textWrites (t1 ++ t2) = textWrites t1 ++ textWrites t2.
Proof. apply omap_app. Qed.

(** A handler calling [Send] does not call the handler. *)
Lemma send_event_handlerCalls (n : NymSocketManager) (evs : list Event) :
  Forall (send_event n) evs → handlerCalls evs = [].
Proof.
  induction 1 as [|e evs He _ IH]; [done|].
  destruct e; simpl in *; by try rewrite IH.
Qed.

Lemma messageDispatcher_handlerCalls (s : list byte) (w : World) :
  handlerCalls (trace (world_of (messageDispatcher s w))) =
  handlerCalls (trace w) ++ option_list (applicationMessage s).
Proof.
  unfold applicationMessage, frameKind, messageDispatcher. unfold_m.
  open_world w. crunch; rewrite ?handlerCalls_app; simpl;
    repeat match goal with
           | H : Forall (send_event _) _ |- _ =>
               rewrite (send_event_handlerCalls _ _ H); clear H
           end;
    by rewrite ?app_nil_r.
Qed.

(** The dispatcher (lines 274-325) calls the application handler once for
    every frame that is application data and decodes, with the decoded
    message and in the order of arrival, and for no other frame: after the
    frames [fs] the handler has been called with the messages of exactly
    those frames, oldest first. *)
Theorem handler_gets_application_data_in_order (fs : list (list byte))
    (w w' : World) :
  dispatchAll fs w = Done tt w' →
  handlerCalls (trace w') = handlerCalls (trace w) ++ omap applicationMessage fs.
Proof.
  revert w. induction fs as [|s fs IH]; intros w Hd.
  - injection Hd as <-. by rewrite app_nil_r.
  - simpl in Hd. apply bind_Done in Hd as ([] & w1 & Hs & Hrest).
    pose proof (messageDispatcher_handlerCalls s w) as Hcalls.
    rewrite Hs in Hcalls. simpl in Hcalls.
    rewrite (IH w1 Hrest), Hcalls, <- app_assoc. f_equal.
    simpl. change (list_omap _ _ applicationMessage fs)
      with (omap applicationMessage fs).
    by destruct (applicationMessage s).
Qed.

(** ** [Send] *)

(** [Send] (lines 215-240) never panics and never changes the manager, a
    channel or a connection.  It returns nil exactly when it has written
    one text frame, the bytes [json.Marshal] gave for the message, on the
    manager's connection and the write succeeded; when there is no
    connection or the message cannot be marshalled it writes nothing. *)
Theorem Send_effect (msg : NymMessage) (net_ok : bool) (w : World) :
  ∃ e w',
    Send msg net_ok w = Done e w' ∧ same_store w w' ∧
    handlerCalls (trace w') = handlerCalls (trace w) ∧
    match connection (mgr w), json_Marshal msg with
    | Some c, Some payload =>
        ∃ ok, textWrites (trace w') = textWrites (trace w) ++ [(c, payload, ok)] ∧
              (e = None ↔ ok = true) ∧
              (e = None ∨ e = Some ErrSendMessage)
    | Some c, None =>
        textWrites (trace w') = textWrites (trace w) ∧ e = Some ErrMarshal
    | None, _ =>
        textWrites (trace w') = textWrites (trace w) ∧
        e = Some ErrConnectionUndefined
    end.
Proof.
  open_world w. unfold Send. unfold_m. simpl.
  destruct n_conn as [c|]; [destruct (json_Marshal msg) as [payload|]|]; simpl.
  - destruct (net_ok && bool_decide (cns !! c = Some ConnOpen)) eqn:Hok;
      eexists _, _; (split; [reflexivity|]); simpl;
      rewrite ?handlerCalls_app, ?textWrites_app; simpl; rewrite ?app_nil_r;
      (split; [by repeat split|]); (split; [done|]);
      eexists; (split; [reflexivity|]); split; try done; auto.
  - eexists _, _. split; [reflexivity|]. simpl.
    rewrite ?handlerCalls_app, ?textWrites_app. simpl. rewrite ?app_nil_r.
    by repeat split.
  - eexists _, _. split; [reflexivity|]. simpl.
    rewrite ?handlerCalls_app, ?textWrites_app. simpl. rewrite ?app_nil_r.
    by repeat split.
Qed.

(** ** [Start], path by path *)

(** While an identity-received channel is set and closed, no identity
    reply can be dispatched without a panic, so the channel stays as it
    is. *)
Lemma dispatchAll_closed_stays (fs : list (list byte)) (w w' : World)
    (ch : chan_ref) :
  dispatchAll fs w = Done tt w' →
  selfAddressReceivedChan (mgr w) = Some ch →
  chans w !! ch = Some ChClosed →
  chans w' !! ch = Some ChClosed.
Proof.
  revert w. induction fs as [|s fs IH]; intros w Hd Hch Hclosed.
  - by injection Hd as <-.
  - simpl in Hd. apply bind_Done in Hd as ([] & w1 & Hs & Hrest).
    destruct (identityOf s) as [a|] eqn:Hid.
    + pose proof (messageDispatcher_signals s a w ch Hid Hch) as Hsig.
      rewrite Hs in Hsig. destruct Hsig as (Hopen & _). congruence.
    + destruct (messageDispatcher_other s w Hid) as (w2 & Hs2 & Hm & Hc & _).
      rewrite Hs in Hs2. injection Hs2 as <-.
      apply (IH w1 Hrest); by rewrite ?Hm, ?Hc.
Qed.

(** Frames that contain an identity reply, dispatched without panic while
    the identity-received channel is set, leave that channel closed. *)
Lemma dispatchAll_signalled (fs : list (list byte)) (w w' : World)
    (ch : chan_ref) :
  dispatchAll fs w = Done tt w' →
  selfAddressReceivedChan (mgr w) = Some ch →
  lastIdentity fs ≠ None →
  chans w' !! ch = Some ChClosed.
Proof.
  revert w. induction fs as [|s fs IH]; intros w Hd Hch Hsome; [done|].
  simpl in Hd. apply bind_Done in Hd as ([] & w1 & Hs & Hrest).
  destruct (identityOf s) as [a|] eqn:Hid.
  - pose proof (messageDispatcher_signals s a w ch Hid Hch) as Hsig.
    rewrite Hs in Hsig. destruct Hsig as (_ & Hclosed & Hch1).
    by eapply dispatchAll_closed_stays.
  - destruct (messageDispatcher_other s w Hid) as (w2 & Hs2 & Hm & Hc & _).
    rewrite Hs in Hs2. injection Hs2 as <-.
    apply (IH w1 Hrest); [by rewrite Hm|].
    rewrite lastIdentity_cons, Hid in Hsome. by destruct (lastIdentity fs).
Qed.

(** A failed dial (lines 83-90) leaves the manager as it was: [Start]
    returns the open-connection error, no listener, channel or connection
    has been made, and the manager is still not running, so [Start] can be
    called again. *)
Theorem Start_dial_failure_is_clean (env : StartEnv) (w : World) :
  connection (mgr w) = None →
  dial_ok env = false →
  ∃ w', Start env w = Done (None, Some ErrOpenConnection) w' ∧
        same_store w w' ∧
        effects (trace w') = effects (trace w) ++ [EvDial (connectionURI (mgr w)) None] ∧
        result (IsRunning w') = Some false.
Proof.
  intros Hc Hdial. open_world w. subst n_conn.
  unfold Start. unfold_m. simpl. rewrite Hdial. simpl.
  eexists. split; [reflexivity|]. simpl. split; [by repeat split|].
  split; [|done]. rewrite !effects_app. simpl. by rewrite !app_nil_r.
Qed.

(** What [Start] returns tells what happened (lines 71-138): a channel
    and no error only when the manager had no connection, every step
    succeeded and an identity reply arrived before the timer; (nil, nil)
    only when a connection was already set; and each error only for its own
    step: the dial, the listener, marshalling or writing the identity
    request, the wait for the identity.  A channel never comes with an
    error. *)
Theorem Start_result_tells_the_step (env : StartEnv) (w w' : World)
    (och : option chan_ref) (oe : option error) :
  Start env w = Done (och, oe) w' →
  match och, oe with
  | Some sc, None =>
      connection (mgr w) = None ∧ dial_ok env = true ∧ listener_ok env = true ∧
      request_write_ok env = true ∧ timer_wins env = false ∧
      lastIdentity (frames env) ≠ None
  | None, None => connection (mgr w) ≠ None
  | None, Some ErrOpenConnection =>
      connection (mgr w) = None ∧ dial_ok env = false
  | None, Some ErrInitSocketListener =>
      dial_ok env = true ∧ listener_ok env = false
  | None, Some (ErrSendSelfAddressRequest ErrMarshal) =>
      listener_ok env = true ∧ json_Marshal NewSelfAddressRequest = None
  | None, Some (ErrSendSelfAddressRequest ErrSendMessage) =>
      listener_ok env = true ∧ request_write_ok env = false
  | None, Some ErrCollectClientID =>
      listener_ok env = true ∧
      (timer_wins env = true ∨ lastIdentity (frames env) = None)
  | _, _ => False
  end.
Proof.
  intros H. open_world w.
  assert (Hnew : ∀ cns : list ConnState,
            bool_decide ((cns ++ [ConnOpen]) !! length cns = Some ConnOpen) = true).
  { intros l. apply bool_decide_eq_true. by rewrite lookup_app_r, Nat.sub_diag. }
  unfold Start, Send in H. unfold_m in H.
  crunch; simpl in *;
    repeat match goal with u : unit |- _ => destruct u end;
    rewrite ?Hnew, ?andb_true_r in *; try done.
  all: match goal with
       | Hd : dispatchAll _ ?w0 = Done _ ?wd |- _ =>
           pose proof (dispatchAll_frame (frames env) w0) as Hfr;
           rewrite Hd in Hfr;
           destruct Hfr as (_ & _ & _ & _ & _ & Hach & _);
           cbv [set_selfAddressReceivedChan] in Hach; simpl in Hach;
           pose proof (dispatchAll_signalled _ w0 wd _ Hd eq_refl) as Hsig;
           pose proof (dispatchAll_no_identity (frames env) w0) as Hno;
           rewrite Hd in Hno
       end.
  all: try congruence.
  all: match goal with
       | Hr : selfAddressReceivedChan (mgr _) = Some ?c |- _ =>
           is_var c; assert (c = length (chs ++ [ChOpen])) as -> by congruence
       end.
  - (* the identity arrived before the timer *)
    match goal with
    | Hb : _ && _ = true |- _ =>
        apply andb_true_iff in Hb
          as [Hclosed%bool_decide_eq_true Htimer%negb_true_iff]
    end.
    repeat split; try done.
    intros Hn. destruct (Hno Hn) as (w3 & [= <-] & _ & Hch & _).
    simpl in Hch. rewrite Hch, lookup_app_r in Hclosed by done.
    by rewrite Nat.sub_diag in Hclosed.
  - (* the wait timed out *)
    split; [done|].
    destruct (timer_wins env); [by left | right].
    destruct (lastIdentity (frames env)) eqn:Hlast; [exfalso | done].
    specialize (Hsig ltac:(done)).
    match goal with
    | Hb : _ && _ = false |- _ =>
        rewrite andb_true_r in Hb; apply bool_decide_eq_false in Hb
    end.
    done.
Qed.

(** Dispatching frames closes at most the identity-received channel: every
    other channel is as before. *)
Lemma messageDispatcher_other_chans (s : list byte) (w : World) (ch : chan_ref) :
  selfAddressReceivedChan (mgr w) ≠ Some ch →
  chans (world_of (messageDispatcher s w)) !! ch = chans w !! ch.
Proof.
  unfold messageDispatcher. unfold_m. intros Hne. open_world w.
  crunch; try done.
  rewrite list_lookup_insert_ne; [done | congruence].
Qed.

Lemma dispatchAll_other_chans (fs : list (list byte)) (w w' : World) (ch : chan_ref) :
  dispatchAll fs w = Done tt w' →
  selfAddressReceivedChan (mgr w) ≠ Some ch →
  chans w' !! ch = chans w !! ch.
Proof.
  revert w. induction fs as [|s fs IH]; intros w Hd Hne.
  - by injection Hd as <-.
  - simpl in Hd. apply bind_Done in Hd as ([] & w1 & Hs & Hrest).
    pose proof (messageDispatcher_other_chans s w ch Hne) as Hch.
    pose proof (messageDispatcher_frame s w) as Hfr.
    rewrite Hs in Hch, Hfr. simpl in *.
    destruct Hfr as (_ & _ & _ & _ & _ & Hach & _).
    rewrite <- Hch. apply (IH w1 Hrest). by rewrite Hach.
Qed.

(** ** Sessions *)

(** The path of [Start] that returns a channel, in full. *)
Lemma Start_success_store (env : StartEnv) (w w1 : World) (sc : chan_ref) :
  Start env w = Done (Some sc, None) w1 →
  ∃ c l,
    mgr w1 =
      mkManager (default (clientID (mgr w)) (lastIdentity (frames env)))
        (connectionURI (mgr w)) (Some c) (Some sc) (Some l)
        (Some (length (chans w))) None ∧
    c = length (conns w) ∧ l = listeners w ∧
    sc = S (S (length (chans w))) ∧
    conns w1 = conns w ++ [ConnOpen] ∧
    length (chans w1) = S (S (S (length (chans w)))) ∧
    chans w1 !! sc = Some ChOpen ∧
    (∀ ch, ch < length (chans w) → chans w1 !! ch = chans w !! ch).
Proof.
  intros H. pose proof (Start_success env w sc w1 H) as (Hid & _ & _ & _).
  open_world w. unfold Start, Send in H. unfold_m in H.
  crunch. simpl in *.
  repeat match goal with u : unit |- _ => destruct u end.
  match goal with
  | Hd : dispatchAll _ ?w0 = Done _ ?wd |- _ =>
      pose proof (dispatchAll_frame (frames env) w0) as Hfr;
      rewrite Hd in Hfr; simpl in Hfr;
      destruct Hfr as (Huri & Hconn & Hsc & Hsl & Hlch & Hach & Hlen & Hcns & Hls);
      idtac
  end.
  cbv [set_clientID set_connection set_selfInstanceStoppedChan set_socketListener
       set_closedSocketListenerChan set_selfAddressReceivedChan] in *.
  simpl in *. rewrite !length_app in Hlen. simpl in Hlen.
  exists (length cns), ls.
  split; [f_equal; assumption|].
  split; [done|]. split; [done|]. split; [lia|]. split; [done|].
  split; [rewrite length_app; simpl; lia|].
  split; [by rewrite lookup_app_r, Nat.sub_diag|].
  intros ch Hlt. rewrite lookup_app_l by lia.
  match goal with
  | Hd : dispatchAll _ ?w0 = Done _ ?wd |- _ =>
      pose proof (dispatchAll_other_chans _ w0 wd ch Hd) as Hother
  end.
  simpl in Hother. etrans; [apply Hother|].
  - rewrite length_app. simpl. intros [=]. lia.
  - by rewrite <- app_assoc, lookup_app_l.
Qed.

(** A channel and a connection of its own: what [Start] returns with a nil
    error (lines 101-137) is the manager's stopped-notification channel,
    open and made by this call, on a connection opened by this call; the
    identity-received channel is nil again and [IsRunning] is true. *)
Theorem Start_returns_its_stopped_channel (env : StartEnv) (w w1 : World)
    (sc : chan_ref) :
  Start env w = Done (Some sc, None) w1 →
  selfInstanceStoppedChan (mgr w1) = Some sc ∧
  chans w !! sc = None ∧ chans w1 !! sc = Some ChOpen ∧
  (∃ c, connection (mgr w1) = Some c ∧
        conns w !! c = None ∧ conns w1 !! c = Some ConnOpen) ∧
  selfAddressReceivedChan (mgr w1) = None ∧
  result (IsRunning w1) = Some true.
Proof.
  intros H.
  destruct (Start_success_store env w w1 sc H)
    as (c & l & Hmgr & -> & -> & -> & Hconns & _ & Hopen & _).
  rewrite Hmgr. simpl. split; [done|].
  split; [apply lookup_ge_None; lia|]. split; [done|].
  split; [|by unfold IsRunning; unfold_m; rewrite Hmgr].
  exists (length (conns w)). split; [done|].
  split; [by apply lookup_ge_None|].
  by rewrite Hconns, lookup_app_r, Nat.sub_diag.
Qed.

(** With no [Start] waiting, a frame changes nothing but the identity. *)
Lemma messageDispatcher_no_waiter (s : list byte) (w : World) :
  selfAddressReceivedChan (mgr w) = None →
  ∃ w', messageDispatcher s w = Done tt w' ∧
        mgr w' = set_clientID (default (clientID (mgr w)) (identityOf s)) (mgr w) ∧
        chans w' = chans w ∧ conns w' = conns w ∧ listeners w' = listeners w.
Proof.
  unfold identityOf, frameKind, messageDispatcher. unfold_m. intros Hach.
  open_world w. subst n_ach.
  crunch; eexists; (split; [reflexivity|]); by repeat split.
Qed.

Lemma dispatchAll_no_waiter (fs : list (list byte)) (w : World) :
  selfAddressReceivedChan (mgr w) = None →
  ∃ w', dispatchAll fs w = Done tt w' ∧
        mgr w' = set_clientID (default (clientID (mgr w)) (lastIdentity fs)) (mgr w) ∧
        chans w' = chans w ∧ conns w' = conns w ∧ listeners w' = listeners w.
Proof.
  revert w. induction fs as [|s fs IH]; intros w Hach.
  - exists w. split; [done|]. split; [by destruct w as [[]]|done].
  - destruct (messageDispatcher_no_waiter s w Hach)
      as (w1 & Hs & Hm1 & Hch1 & Hcn1 & Hl1).
    destruct (IH w1) as (w2 & Hrest & Hm2 & Hch2 & Hcn2 & Hl2).
    { by rewrite Hm1. }
    exists w2. split; [simpl; unfold mbind, M_bind; by rewrite Hs|].
    split; [|split; [congruence | split; congruence]].
    rewrite Hm2, Hm1, lastIdentity_cons. simpl.
    by destruct (lastIdentity fs), (identityOf s).
Qed.

(** Once [Start] has cleared the identity-received channel (and before any
    [Start] has set it), no sequence of inbound frames makes the dispatcher
    panic or change a channel, a connection or a handle: identity replies
    only update the identity (lines 296-300). *)
Theorem dispatch_is_safe_without_waiter (fs : list (list byte)) (w : World) :
  selfAddressReceivedChan (mgr w) = None →
  ∃ w', dispatchAll fs w = Done tt w' ∧
        mgr w' = set_clientID (default (clientID (mgr w)) (lastIdentity fs)) (mgr w) ∧
        chans w' = chans w ∧ conns w' = conns w ∧ listeners w' = listeners w.
Proof. exact (dispatchAll_no_waiter fs w). Qed.

(** [Ready] does not depend on the identity or on the trace. *)
Lemma Ready_same_handles (w w' : World) (id : string) :
  mgr w' = set_clientID id (mgr w) → chans w' = chans w → Ready w → Ready w'.
Proof.
  intros Hm Hch (c & l & sc & ? & ? & ? & ? & ?).
  exists c, l, sc. rewrite Hm, Hch. by repeat split.
Qed.

(** A whole session (lines 71-212): after a [Start] that returned a
    channel, whatever frames arrive, [Stop] returns, closes exactly that
    channel and the session's connection, and leaves the manager not
    running with its handles nil. *)
Theorem Stop_closes_the_channel_Start_returned (env : StartEnv)
    (tenv : TeardownEnv) (later : list (list byte)) (w w1 : World)
    (sc : chan_ref) :
  Start env w = Done (Some sc, None) w1 →
  ∃ w2 w3 c,
    dispatchAll later w1 = Done tt w2 ∧
    Stop tenv w2 = Done tt w3 ∧
    connection (mgr w1) = Some c ∧
    torn_down tenv c sc w2 w3 ∧
    chans w3 !! sc = Some ChClosed ∧
    conns w3 !! c = Some ConnClosed ∧
    result (IsRunning w3) = Some false.
Proof.
  intros H.
  destruct (Start_success env w sc w1 H) as (_ & _ & Hready & Hach).
  destruct (Start_success_store env w w1 sc H)
    as (c & l & Hmgr & -> & -> & -> & Hconns & _ & Hopen & _).
  destruct (dispatchAll_no_waiter later w1 Hach)
    as (w2 & Hlater & Hm2 & Hch2 & Hcn2 & _).
  pose proof (Ready_same_handles w1 w2 _ Hm2 Hch2 Hready) as Hready2.
  assert (Hc2 : connection (mgr w2) = Some (length (conns w)))
    by (by rewrite Hm2, Hmgr).
  assert (Hsc2 : selfInstanceStoppedChan (mgr w2) = Some (S (S (length (chans w)))))
    by (by rewrite Hm2, Hmgr).
  destruct Hready2 as (c' & l' & sc' & Hc' & Hl' & Hsc' & Hopen' & Hne').
  assert (c' = length (conns w)) as -> by congruence.
  assert (sc' = S (S (length (chans w)))) as -> by congruence.
  destruct (Stop_Ready tenv w2 _ l' _ Hc' Hl' Hsc' Hopen' Hne')
    as (w3 & Hstop & Htorn).
  exists w2, w3, (length (conns w)).
  split; [done|]. split; [done|]. split; [by rewrite Hmgr|].
  split; [done|].
  destruct Htorn as (written & waited & evs & _ & _ & Hm3 & Hcn3 & Hch3).
  split; [done|]. split.
  - rewrite Hcn3, Hcn2, Hconns. apply list_lookup_insert_eq.
    rewrite length_app. simpl. lia.
  - unfold IsRunning. unfold_m. by rewrite Hm3.
Qed.

(** ** The handshake *)








(** ** What every reachable state satisfies *)

Lemma Send_same_store (msg : NymMessage) (net_ok : bool) (w : World) :
  ∃ e w', Send msg net_ok w = Done e w' ∧ same_store w w'.
Proof.
  open_world w. unfold Send. unfold_m. simpl.
  repeat case_match; eexists _, _; (split; [reflexivity|]); by repeat split.
Qed.

Lemma Start_channel_no_error (env : StartEnv) (w w' : World) (sc : chan_ref)
    (oe : option error) :
  Start env w = Done (Some sc, oe) w' → oe = None.
Proof.
  intros H. open_world w. unfold Start, Send in H. unfold_m in H. by crunch.
Qed.

(** The failing paths of [Start] on a manager between sessions. *)
Lemma Start_failure_store (env : StartEnv) (w w' : World) (oe : option error) :
  connection (mgr w) = None →
  selfInstanceStoppedChan (mgr w) = None →
  Start env w = Done (None, oe) w' →
  selfInstanceStoppedChan (mgr w') = None ∧
  ((connection (mgr w') = None ∧ conns w' = conns w) ∨
   (connection (mgr w') = Some (length (conns w)) ∧
    conns w' = conns w ++ [ConnOpen])).
Proof.
  intros Hc Hsc H. open_world w. subst n_conn n_sc.
  Start_paths H env; rewrite ?Hsc, ?Hconn, ?Hcns; simpl; auto.
Qed.

Lemma same_store_settled (w w' : World) :
  same_store w w' →
  session_settled w ∧ single_connection w →
  session_settled w' ∧ single_connection w'.
Proof.
  intros (Hm & Hch & Hcn & _) [Hs Hsingle]. split.
  - destruct Hs as [Hnone | [(c & l & sc & ? & ? & ? & ? & ?) Hach]].
    + left. by rewrite Hm.
    + right. split; [|by rewrite Hm].
      exists c, l, sc. rewrite Hm, Hch. by repeat split.
  - intros c. rewrite Hm, Hcn. apply Hsingle.
Qed.

Lemma Start_resumes (env : StartEnv) (w : World) (c : conn_ref) :
  connection (mgr w) = Some c →
  ∃ w', Start env w = Done (None, None) w' ∧ same_store w w'.
Proof.
  intros Hc. open_world w. subst n_conn.
  eexists. split; [reflexivity|]. by repeat split.
Qed.

Lemma settled_Start (env : StartEnv) (w w' : World)
    (r : option chan_ref * option error) :
  Start env w = Done r w' →
  session_settled w ∧ single_connection w →
  session_settled w' ∧ single_connection w'.
Proof.
  intros H [Hs Hsingle].
  destruct (connection (mgr w)) as [c|] eqn:Hc.
  - destruct (Start_resumes env w c Hc) as (w2 & H2 & Hsame).
    rewrite H in H2. injection H2 as _ <-.
    by apply (same_store_settled w w').
  - assert (Hsc : selfInstanceStoppedChan (mgr w) = None).
    { destruct Hs as [? | [(c & ? & ? & ? & _) _]]; [done | congruence]. }
    assert (Hclosed : ∀ c, conns w !! c ≠ Some ConnOpen).
    { intros c Hopen. apply Hsingle in Hopen. congruence. }
    destruct r as [[sc|] oe].
    + pose proof (Start_channel_no_error env w w' sc oe H) as ->.
      destruct (Start_success env w sc w' H) as (_ & _ & Hready & Hach).
      destruct (Start_success_store env w w' sc H)
        as (c & l & Hmgr & -> & _ & _ & Hconns & _).
      split; [by right|].
      intros c. rewrite Hconns, Hmgr. simpl. intros Hopen. f_equal.
      destruct (decide (c < length (conns w))) as [Hlt|Hge].
      * rewrite lookup_app_l in Hopen by done. by apply Hclosed in Hopen.
      * apply lookup_lt_Some in Hopen. rewrite length_app in Hopen.
        simpl in Hopen. lia.
    + destruct (Start_failure_store env w w' oe Hc Hsc H)
        as (Hsc' & [[Hc' Hcn'] | [Hc' Hcn']]).
      * split; [by left|]. intros c. rewrite Hcn'. intros Hopen.
        by apply Hclosed in Hopen.
      * split; [by left|]. intros c. rewrite Hcn', Hc'. intros Hopen. f_equal.
        destruct (decide (c < length (conns w))) as [Hlt|Hge].
        -- rewrite lookup_app_l in Hopen by done. by apply Hclosed in Hopen.
        -- apply lookup_lt_Some in Hopen. rewrite length_app in Hopen.
           simpl in Hopen. lia.
Qed.

Lemma settled_Stop (env : TeardownEnv) (w w' : World) :
  Stop env w = Done tt w' →
  session_settled w ∧ single_connection w →
  session_settled w' ∧ single_connection w'.
Proof.
  intros H [Hs Hsingle].
  destruct Hs as [Hnone | [(c & l & sc & Hc & Hl & Hsc & Hopen & Hne) Hach]].
  - destruct (Stop_settled env w (or_intror Hnone)) as (w2 & H2 & Hsame & _).
    rewrite H in H2. injection H2 as <-.
    apply (same_store_settled w w'); [done|]. split; [by left | done].
  - destruct (Stop_Ready env w c l sc Hc Hl Hsc Hopen Hne)
      as (w2 & H2 & _ & _ & _ & _ & _ & Hmgr & Hconns & _).
    rewrite H in H2. injection H2 as <-.
    split; [left; by rewrite Hmgr|].
    intros c' Hopen'. exfalso. rewrite Hconns in Hopen'.
    destruct (decide (c = c')) as [<-|Hneq].
    + destruct (decide (c < length (conns w))) as [Hlt|Hge].
      * by rewrite list_lookup_insert_eq in Hopen'.
      * rewrite list_insert_ge in Hopen' by lia.
        apply lookup_lt_Some in Hopen'. lia.
    + rewrite list_lookup_insert_ne in Hopen' by done.
      apply Hsingle in Hopen'. congruence.
Qed.

Lemma settled_dispatch (s : list byte) (w w' : World) :
  messageDispatcher s w = Done tt w' →
  session_settled w ∧ single_connection w →
  session_settled w' ∧ single_connection w'.
Proof.
  intros H [Hs Hsingle].
  pose proof (messageDispatcher_frame s w) as Hfr. rewrite H in Hfr.
  destruct Hfr as (_ & Hc & Hsc & _ & _ & _ & _ & Hcn & _). simpl in *.
  split.
  - destruct Hs as [Hnone | [Hready Hach]]; [left; congruence|].
    destruct (messageDispatcher_no_waiter s w Hach) as (w2 & H2 & Hm & Hch & _).
    rewrite H in H2. injection H2 as <-.
    right. split; [by eapply Ready_same_handles | by rewrite Hm].
  - intros c. rewrite Hc, Hcn. apply Hsingle.
Qed.

Lemma settled_call (o : Op) (w w' : World) :
  call o w = Done tt w' →
  session_settled w ∧ single_connection w →
  session_settled w' ∧ single_connection w'.
Proof.
  destruct o as [env|env|msg ok|s| |]; simpl; intros H Hinv.
  - apply bind_Done in H as (r & w1 & H1 & [= <-]). by eapply settled_Start.
  - by eapply settled_Stop.
  - apply bind_Done in H as (r & w1 & H1 & [= <-]).
    destruct (Send_same_store msg ok w) as (e & w2 & H2 & Hsame).
    rewrite H1 in H2. injection H2 as _ <-.
    by apply (same_store_settled w w1).
  - by eapply settled_dispatch.
  - by injection H as <-.
  - by injection H as <-.
Qed.

Lemma settled_run (ops : list Op) (w w' : World) :
  run ops w = Done tt w' →
  session_settled w ∧ single_connection w →
  session_settled w' ∧ single_connection w'.
Proof.
  revert w. induction ops as [|o ops IH]; intros w H Hinv.
  - by injection H as <-.
  - simpl in H. apply bind_Done in H as ([] & w1 & H1 & H2).
    eapply IH; [done|]. by eapply settled_call.
Qed.

Lemma settled_new (uri : string) (handler logger : bool) (n : NymSocketManager) :
  NewNymSocketManager uri handler logger = Valid n →
  session_settled (initWorld n : World) ∧ single_connection (initWorld n : World).
Proof.
  unfold NewNymSocketManager. intros Hnew.
  repeat case_match; simplify_eq. split; [by left | by intros c].
Qed.

(** After any calls on a new manager (lines 18-325), by the application
    and by the receive loop in any order, that have returned: [Stop]
    returns too, for every environment; it leaves no stopped-notification
    channel behind, and if a session was established it has closed that
    session's channel and the manager is no longer running.  So a close of
    the stopped-notification channel is never attempted twice. *)
Theorem Stop_never_panics (uri : string) (handler logger : bool)
    (n : NymSocketManager) (history : list Op) (w : World) (env : TeardownEnv) :
  NewNymSocketManager uri handler logger = Valid n →
  run history (initWorld n) = Done tt w →
  ∃ w', Stop env w = Done tt w' ∧
        selfInstanceStoppedChan (mgr w') = None ∧
        ∀ sc, selfInstanceStoppedChan (mgr w) = Some sc →
              chans w !! sc = Some ChOpen ∧ chans w' !! sc = Some ChClosed ∧
              result (IsRunning w') = Some false.
Proof.
  intros Hnew Hrun.
  destruct (settled_run history _ w Hrun (settled_new _ _ _ _ Hnew)) as [Hs _].
  destruct Hs as [Hnone | [(c & l & sc & Hc & Hl & Hsc & Hopen & Hne) Hach]].
  - destruct (Stop_settled env w (or_intror Hnone)) as (w' & Hstop & Hsame & _).
    exists w'. split; [done|]. destruct Hsame as (Hm & _).
    split; [by rewrite Hm|]. intros sc. by rewrite Hnone.
  - destruct (Stop_Ready env w c l sc Hc Hl Hsc Hopen Hne)
      as (w' & Hstop & _ & _ & _ & _ & _ & Hmgr & _ & Hclosed).
    exists w'. split; [done|]. split; [by rewrite Hmgr|].
    intros sc' Hsc'. assert (sc' = sc) as -> by congruence.
    split; [done|]. split; [done|].
    unfold IsRunning. unfold_m. by rewrite Hmgr.
Qed.

(** After any calls on a new manager that have returned, the only
    connection on which [Close()] has not been called is the one the
    manager holds: at most one connection is open, and none when
    [IsRunning] is false. *)
Theorem at_most_one_open_connection (uri : string) (handler logger : bool)
    (n : NymSocketManager) (history : list Op) (w : World) :
  NewNymSocketManager uri handler logger = Valid n →
  run history (initWorld n) = Done tt w →
  (∀ c, conns w !! c = Some ConnOpen → connection (mgr w) = Some c) ∧
  (∀ c1 c2, conns w !! c1 = Some ConnOpen → conns w !! c2 = Some ConnOpen →
            c1 = c2) ∧
  (result (IsRunning w) = Some false → ∀ c, conns w !! c ≠ Some ConnOpen).
Proof.
  intros Hnew Hrun.
  destruct (settled_run history _ w Hrun (settled_new _ _ _ _ Hnew))
    as [_ Hsingle].
  split; [exact Hsingle|]. split.
  - intros c1 c2 H1 H2. apply Hsingle in H1, H2. congruence.
  - unfold IsRunning. unfold_m. simpl. intros [= Hrunning] c Hopen.
    apply Hsingle in Hopen. apply bool_decide_eq_false in Hrunning.
    apply Hrunning. congruence.
Qed.

(** Sessions do not share anything (lines 71-212): when a manager is
    started, stopped and started again, the second [Start] returns a new
    channel on a new connection; the first channel and the first
    connection stay closed. *)
Theorem Start_after_Stop_is_a_new_session (env1 env2 : StartEnv)
    (tenv : TeardownEnv) (w w1 w2 w3 : World) (sc1 sc2 : chan_ref) :
  Start env1 w = Done (Some sc1, None) w1 →
  Stop tenv w1 = Done tt w2 →
  Start env2 w2 = Done (Some sc2, None) w3 →
  sc1 ≠ sc2 ∧
  chans w3 !! sc1 = Some ChClosed ∧ chans w3 !! sc2 = Some ChOpen ∧
  ∃ c1 c2, connection (mgr w1) = Some c1 ∧ connection (mgr w3) = Some c2 ∧
           c1 ≠ c2 ∧
           conns w3 !! c1 = Some ConnClosed ∧ conns w3 !! c2 = Some ConnOpen.
Proof.
  intros H1 Hstop H2.
  destruct (Start_success env1 w sc1 w1 H1)
    as (_ & _ & (c & l & sc & Hc & Hl & Hsc & Hopen & Hne) & _).
  destruct (Start_success_store env1 w w1 sc1 H1)
    as (c1 & l1 & Hmgr1 & -> & _ & Hsc1 & Hconns1 & _).
  assert (c = length (conns w)) as ->
    by (rewrite Hmgr1 in Hc; simpl in Hc; congruence).
  assert (sc = sc1) as ->
    by (rewrite Hmgr1 in Hsc; simpl in Hsc; congruence).
  destruct (Stop_Ready tenv w1 _ l sc1 Hc Hl Hsc Hopen Hne)
    as (w2' & Hstop' & _ & _ & _ & _ & _ & Hmgr2 & Hconns2 & Hclosed).
  rewrite Hstop in Hstop'. injection Hstop' as <-.
  destruct (Start_success_store env2 w2 w3 sc2 H2)
    as (c2 & l2 & Hmgr3 & -> & _ & Hsc2 & Hconns3 & _ & Hopen3 & Hold).
  pose proof (lookup_lt_Some _ _ _ Hclosed) as Hlt.
  assert (Hlen : length (conns w2) = S (length (conns w)))
    by (rewrite Hconns2, length_insert, Hconns1, length_app; simpl; lia).
  split; [lia|]. split; [by rewrite Hold|]. split; [done|].
  exists (length (conns w)), (length (conns w2)).
  split; [by rewrite Hmgr1|]. split; [by rewrite Hmgr3|]. split; [lia|].
  rewrite Hconns3. split.
  - rewrite lookup_app_l by lia. rewrite Hconns2.
    apply list_lookup_insert_eq. rewrite Hconns1, length_app. simpl. lia.
  - by rewrite lookup_app_r, Nat.sub_diag.
Qed.

(** ** After a failed handshake *)

(** A connection without a stopped-notification channel stays: no call
    changes either. *)
Lemma wedged_call (o : Op) (w w' : World) (c : conn_ref) :
  call o w = Done tt w' →
  connection (mgr w) = Some c ∧ selfInstanceStoppedChan (mgr w) = None ∧
    conns w !! c = Some ConnOpen →
  connection (mgr w') = Some c ∧ selfInstanceStoppedChan (mgr w') = None ∧
    conns w' !! c = Some ConnOpen.
Proof.
  intros H (Hc & Hsc & Hopen).
  assert (Hsame : same_store w w' →
            connection (mgr w') = Some c ∧ selfInstanceStoppedChan (mgr w') = None ∧
            conns w' !! c = Some ConnOpen).
  { intros (Hm & _ & Hcn & _). by rewrite Hm, Hcn. }
  destruct o as [env|env|msg ok|s| |]; simpl in H.
  - apply bind_Done in H as (r & w1 & H1 & [= <-]).
    destruct (Start_resumes env w c Hc) as (w2 & H2 & Hs).
    rewrite H1 in H2. injection H2 as _ <-. by apply Hsame.
  - destruct (Stop_settled env w (or_intror Hsc)) as (w2 & H2 & Hs & _).
    rewrite H in H2. injection H2 as <-. by apply Hsame.
  - apply bind_Done in H as (r & w1 & H1 & [= <-]).
    destruct (Send_same_store msg ok w) as (e & w2 & H2 & Hs).
    rewrite H1 in H2. injection H2 as _ <-. by apply Hsame.
  - pose proof (messageDispatcher_frame s w) as Hfr. rewrite H in Hfr.
    destruct Hfr as (_ & Hc' & Hsc' & _ & _ & _ & _ & Hcn & _). simpl in *.
    by rewrite Hc', Hsc', Hcn.
  - injection H as <-. by apply Hsame, same_store_refl.
  - injection H as <-. by apply Hsame, same_store_refl.
Qed.

(** A handshake that fails after the dial wedges the manager (lines
    93-131 with the guard of lines 163-166): whatever is called afterwards
    ([Start], [Stop], [Send], inbound frames), the same connection stays
    open and in the manager, [IsRunning] stays true and no session is ever
    established. *)
Theorem failed_handshake_wedges_the_manager (env : StartEnv) (w w1 w2 : World)
    (e : error) (later : list Op) :
  connection (mgr w) = None →
  selfInstanceStoppedChan (mgr w) = None →
  Start env w = Done (None, Some e) w1 →
  e ≠ ErrOpenConnection →
  run later w1 = Done tt w2 →
  ∃ c, connection (mgr w1) = Some c ∧ connection (mgr w2) = Some c ∧
       conns w2 !! c = Some ConnOpen ∧
       selfInstanceStoppedChan (mgr w2) = None ∧
       result (IsRunning w2) = Some true.
Proof.
  intros Hc Hsc Hstart He Hrun.
  destruct (Start_failure_after_dial env w w1 e Hc Hsc Hstart He)
    as (c & Hc1 & Hopen1 & _).
  destruct (Start_failure_store env w w1 _ Hc Hsc Hstart) as (Hsc1 & _).
  exists c. split; [done|].
  assert (Hw : connection (mgr w2) = Some c ∧
               selfInstanceStoppedChan (mgr w2) = None ∧
               conns w2 !! c = Some ConnOpen).
  { clear Hstart. revert w1 Hc1 Hopen1 Hsc1 Hrun.
    induction later as [|o later IH]; intros w1 Hc1 Hopen1 Hsc1 Hrun.
    - by injection Hrun as <-.
    - simpl in Hrun. apply bind_Done in Hrun as ([] & w' & Ho & Hrest).
      destruct (wedged_call o w1 w' c Ho) as (? & ? & ?); [done|].
      by apply (IH w'). }
  destruct Hw as (Hc2 & Hsc2 & Hopen2).
  repeat split; try done.
  unfold IsRunning. unfold_m. by rewrite Hc2.
Qed.

End Properties.

(** * The manager at work on concrete frames *)

Import Demo.

Example NewNymSocketManager_idle :
  NewNymSocketManager "ws://127.0.0.1:1977" true true = Valid (mgr idle).
Proof. reflexivity. Qed.

Example running_is_started :
  Start (answering ["A"]) idle = Done (Some 2, None) running.
Proof. vm_compute. reflexivity. Qed.

Lemma running_Ready : Ready running.
Proof.
  exists 0, 0, 2. vm_compute. repeat split; congruence.
Qed.

(** C1: the peer accepts the connection and never sends an identity reply.
    [Start] on a new manager returns the "failed to collect clientID"
    error, but its [selfDestruct] stops at the guard (the
    stopped-notification channel is only made at the end of a successful
    [Start]): the connection is still open and still in the manager, the
    receive loop is still attached, [IsRunning] is true; the next [Start]
    returns (nil, nil) as for a running session and [Stop] closes
    nothing. *)
Theorem Start_timeout_leaves_connection_open :
  Start silent idle = Done (None, Some ErrCollectClientID) timed_out ∧
  connection (mgr timed_out) = Some 0 ∧
  conns timed_out !! 0 = Some ConnOpen ∧
  socketListener (mgr timed_out) = Some 0 ∧
  result (IsRunning timed_out) = Some true ∧
  result (Start (answering ["A"]) timed_out) = Some (None, None) ∧
  conns (world_of (Stop calm timed_out)) !! 0 = Some ConnOpen ∧
  result (IsRunning (world_of (Stop calm timed_out))) = Some true.
Proof. vm_compute. repeat split; reflexivity. Qed.

(** C6: a manager can be running without being [Ready]: after the [Start]
    that timed out the connection is set and open and [IsRunning] is true,
    but there is no stopped-notification channel.  Teardown of that running
    manager, through [Stop] (whose test, on the connection, lets it pass)
    or directly, returns at the guard of [selfDestruct] (lines 163-166):
    no close frame is sent, nothing is waited for, [connection.Close()] is
    not called; the calls made are log lines only, the connection stays
    open and in the manager, the receive loop stays attached.  On a [Ready]
    manager the order is as claimed ([teardown_order]). *)
Theorem teardown_skipped_on_running_manager :
  run [OpStart silent] idle = Done tt timed_out ∧
  result (IsRunning timed_out) = Some true ∧
  ¬ Ready timed_out ∧
  Stop deaf timed_out = Done tt (world_of (Stop deaf timed_out)) ∧
  same_store timed_out (world_of (Stop deaf timed_out)) ∧
  effects (trace (world_of (Stop deaf timed_out))) = effects (trace timed_out) ∧
  selfDestruct calm timed_out = Done tt (world_of (selfDestruct calm timed_out)) ∧
  same_store timed_out (world_of (selfDestruct calm timed_out)) ∧
  effects (trace (world_of (selfDestruct calm timed_out))) =
    effects (trace timed_out) ∧
  connection (mgr (world_of (Stop calm timed_out))) = Some 0 ∧
  conns (world_of (Stop calm timed_out)) !! 0 = Some ConnOpen ∧
  socketListener (mgr (world_of (Stop calm timed_out))) = Some 0 ∧
  result (IsRunning (world_of (Stop calm timed_out))) = Some true.
Proof.
  split; [vm_compute; reflexivity|]. split; [vm_compute; reflexivity|].
  split.
  { intros (c & l & sc & _ & _ & Hsc & _). vm_compute in Hsc. discriminate. }
  vm_compute. repeat split; reflexivity.
Qed.

(** C2: the peer answers the identity request twice before [Start] wakes
    up.  The first reply closes the identity-received channel and leaves
    the field set; the second reply closes the same channel again, and the
    program panics.  The same happens to two replies that arrive after a
    [Start] that timed out, which never clears the field. *)
Theorem second_identity_reply_closes_closed_channel :
  Start (answering ["A"; "B"]) idle =
    Panic "close of closed channel" (world_of (Start (answering ["A"; "B"]) idle)) ∧
  chans (world_of (messageDispatcher (identity_reply "A") timed_out)) !! 1 =
    Some ChClosed ∧
  selfAddressReceivedChan
    (mgr (world_of (messageDispatcher (identity_reply "A") timed_out))) = Some 1 ∧
  dispatchAll [identity_reply "A"; identity_reply "B"] timed_out =
    Panic "close of closed channel"
      (world_of (dispatchAll [identity_reply "A"; identity_reply "B"] timed_out)).
Proof. vm_compute. repeat split; reflexivity. Qed.

(** C3, as stated, fails: in the session started with identity [A], an
    identity reply carrying [B] arrives; no [Start] is involved, and
    [GetNymClientId] changes from [A] to [B]. *)
Lemma identity_overwritten_mid_session :
  Start (answering ["A"]) idle = Done (Some 2, None) running ∧
  result (GetNymClientId running) = Some "A" ∧
  messageDispatcher (identity_reply "B") running =
    Done tt (world_of (messageDispatcher (identity_reply "B") running)) ∧
  result (GetNymClientId (world_of (messageDispatcher (identity_reply "B") running)))
    = Some "B" ∧
  result (GetNymClientId (world_of (messageDispatcher (identity_reply "B") running)))
    ≠ result (GetNymClientId running).
Proof. vm_compute. repeat split; (reflexivity || discriminate). Qed.

(** ** The theorems at concrete inputs *)

(** C8 at a new manager: the identity request is refused, nothing moves. *)
Lemma Send_not_started_witness :
  connection (mgr idle) = None ∧
  ∃ w', Send NewSelfAddressRequest true idle = Done (Some ErrConnectionUndefined) w' ∧
        same_store idle w' ∧
        effects (trace w') = effects (trace idle).
Proof.
  split; [reflexivity|].
  destruct (Send_not_started NewSelfAddressRequest true idle eq_refl)
    as (w' & Hsend & Hsame & _ & Heff).
  exists w'. split; [exact Hsend|]. split; [exact Hsame | exact Heff].
Defined.

(** C4 at the running session: a second [Start] dials nothing. *)
Lemma Start_already_running_witness :
  connection (mgr running) = Some 0 ∧
  ∃ w', Start (answering ["B"]) running = Done (None, None) w' ∧
        same_store running w' ∧
        effects (trace w') = effects (trace running).
Proof.
  split; [reflexivity|].
  destruct (Start_already_running (answering ["B"]) running 0 eq_refl)
    as (w' & Hstart & Hsame & _ & Heff).
  exists w'. split; [exact Hstart|]. split; [exact Hsame | exact Heff].
Defined.

(** C5 at a new manager, and at the running session stopped three times. *)
Lemma Stop_idempotent_witness :
  (connection (mgr idle) = None ∧
   ∃ w', Stop calm idle = Done tt w' ∧ same_store idle w') ∧
  (Stop calm running = Done tt stopped ∧
   ∃ w2, stopAll [calm; deaf] stopped = Done tt w2 ∧ same_store stopped w2 ∧
         effects (trace w2) = effects (trace stopped)).
Proof.
  destruct (@Stop_idempotent (list (string * string))) as [Hidle Hagain].
  split.
  - split; [reflexivity|].
    destruct (Hidle calm idle eq_refl) as (w' & Hstop & Hsame & _).
    exists w'. split; [exact Hstop | exact Hsame].
  - assert (Hstop : Stop calm running = Done tt stopped)
      by (vm_compute; reflexivity).
    split; [exact Hstop|].
    exact (Hagain calm running stopped [calm; deaf] Hstop).
Defined.

(** The teardown of the running session, with a peer that is gone: the
    close frame cannot be written, the receive loop never reports, closing
    fails. *)
Lemma teardown_order_witness :
  Ready running ∧
  connection (mgr running) = Some 0 ∧
  selfInstanceStoppedChan (mgr running) = Some 2 ∧
  (∃ w', selfDestruct deaf running = Done tt w' ∧ torn_down deaf 0 2 running w') ∧
  (∃ w', Stop deaf running = Done tt w' ∧ torn_down deaf 0 2 running w').
Proof.
  split; [exact running_Ready|]. split; [reflexivity|]. split; [reflexivity|].
  exact (teardown_order deaf running 0 2 running_Ready eq_refl eq_refl).
Defined.

(** C7 at the running session, with a second identity reply after
    [Start]. *)
Lemma GetNymClientId_after_Start_witness :
  Start (answering ["A"]) idle = Done (Some 2, None) running ∧
  dispatchAll [identity_reply "B"] running =
    Done tt (world_of (dispatchAll [identity_reply "B"] running)) ∧
  ∃ a, lastIdentity (frames (answering ["A"]) ++ [identity_reply "B"]) = Some a ∧
       result (GetNymClientId (world_of (dispatchAll [identity_reply "B"] running)))
         = Some a.
Proof.
  assert (Hstart : Start (answering ["A"]) idle = Done (Some 2, None) running)
    by (vm_compute; reflexivity).
  assert (Hlater : dispatchAll [identity_reply "B"] running =
                   Done tt (world_of (dispatchAll [identity_reply "B"] running)))
    by (vm_compute; reflexivity).
  split; [exact Hstart|]. split; [exact Hlater|].
  exact (GetNymClientId_after_Start _ _ _ _ _ _ Hstart Hlater).
Defined.

(** C9 at the running session, on the error reply of the specification's
    scenario. *)
Lemma messageDispatcher_drops_witness :
  frameKind (error_reply "boom") = ErrorReply ∧
  ∃ w', messageDispatcher (error_reply "boom") running = Done tt w' ∧
        same_store running w' ∧
        effects (trace w') = effects (trace running) ∧
        result (IsRunning w') = Some true.
Proof.
  assert (Hkind : frameKind (error_reply "boom") = ErrorReply)
    by (vm_compute; reflexivity).
  split; [exact Hkind|].
  destruct (messageDispatcher_drops (error_reply "boom") running
              (or_intror (or_intror (or_intror Hkind))))
    as (w' & lvl & format & Hd & Hsame & Htr & Hrun).
  exists w'. split; [exact Hd|]. split; [exact Hsame|]. split.
  - rewrite Htr. unfold effects. rewrite List.filter_app. simpl.
    apply app_nil_r.
  - rewrite Hrun. reflexivity.
Defined.

(** C10 at the running session. *)
Lemma teardown_keeps_clientID_witness :
  Ready running ∧
  clientID (mgr (world_of (selfDestruct calm running))) = "A" ∧
  ∃ w', Stop calm running = Done tt w' ∧
        result (IsRunning w') = Some false ∧
        result (GetNymClientId w') = Some "A".
Proof.
  destruct (teardown_keeps_clientID calm running) as (Hsd & _ & Hstop).
  split; [exact running_Ready|]. split; [exact Hsd|].
  exact (Hstop running_Ready).
Defined.

(** C3 (amended) at the running session: a reply carrying [B] is stored;
    an error reply, a [Send] and a [Stop] leave [A]. *)
Lemma identity_written_by_identity_replies_witness :
  identityOf (identity_reply "B") = Some "B" ∧
  clientID (mgr (world_of (messageDispatcher (identity_reply "B") running))) = "B" ∧
  identityOf (error_reply "boom") = None ∧
  clientID (mgr (world_of (messageDispatcher (error_reply "boom") running))) = "A" ∧
  clientID (mgr (world_of (Stop calm running))) = "A".
Proof.
  destruct (@identity_written_by_identity_replies _ _ codec echo)
    as (_ & _ & Hreply & _ & Hother & _ & Hstop & _).
  assert (HB : identityOf (identity_reply "B") = Some "B")
    by (vm_compute; reflexivity).
  assert (He : identityOf (error_reply "boom") = None)
    by (vm_compute; reflexivity).
  split; [exact HB|]. split; [exact (Hreply _ _ running HB)|].
  split; [exact He|]. split; [exact (Hother _ He running)|].
  exact (Hstop calm running).
Defined.

(** ** The further properties at concrete inputs *)

(** Three frames in the running session: the handler gets [X], then [Y];
    the error reply in between is not for it. *)
Lemma handler_gets_application_data_in_order_witness :
  dispatchAll [application_data "X"; error_reply "boom"; application_data "Y"] running =
    Done tt (world_of (dispatchAll
      [application_data "X"; error_reply "boom"; application_data "Y"] running)) ∧
  handlerCalls (trace (world_of (dispatchAll
      [application_data "X"; error_reply "boom"; application_data "Y"] running))) =
    (handlerCalls (trace running) ++
     [[("type", "received"); ("payload", "X")];
      [("type", "received"); ("payload", "Y")]])%list.
Proof.
  assert (Hd : dispatchAll
            [application_data "X"; error_reply "boom"; application_data "Y"] running =
          Done tt (world_of (dispatchAll
            [application_data "X"; error_reply "boom"; application_data "Y"] running)))
    by (vm_compute; reflexivity).
  split; [exact Hd|].
  rewrite (handler_gets_application_data_in_order _ _ _ Hd).
  f_equal; vm_compute; reflexivity.
Defined.

(** The peer cannot be reached: the new manager stays as it was. *)
Lemma Start_dial_failure_is_clean_witness :
  connection (mgr idle) = None ∧ dial_ok unreachable = false ∧
  ∃ w', Start unreachable idle = Done (None, Some ErrOpenConnection) w' ∧
        same_store idle w' ∧
        result (IsRunning w') = Some false.
Proof.
  split; [reflexivity|]. split; [reflexivity|].
  destruct (Start_dial_failure_is_clean unreachable idle eq_refl eq_refl)
    as (w' & Hstart & Hsame & _ & Hrun).
  exists w'. split; [exact Hstart|]. split; [exact Hsame | exact Hrun].
Defined.

(** The timed-out [Start]: the error names the wait for the identity. *)
Lemma Start_result_tells_the_step_witness :
  Start silent idle = Done (None, Some ErrCollectClientID) timed_out ∧
  listener_ok silent = true ∧
  (timer_wins silent = true ∨ lastIdentity (frames silent) = None).
Proof.
  assert (Hstart : Start silent idle = Done (None, Some ErrCollectClientID) timed_out)
    by (vm_compute; reflexivity).
  split; [exact Hstart|].
  exact (Start_result_tells_the_step silent idle timed_out None
           (Some ErrCollectClientID) Hstart).
Defined.

(** The session started with identity [A]: channel 2 is new, open and the
    manager's. *)
Lemma Start_returns_its_stopped_channel_witness :
  Start (answering ["A"]) idle = Done (Some 2, None) running ∧
  selfInstanceStoppedChan (mgr running) = Some 2 ∧
  chans idle !! 2 = None ∧ chans running !! 2 = Some ChOpen ∧
  result (IsRunning running) = Some true.
Proof.
  assert (Hstart : Start (answering ["A"]) idle = Done (Some 2, None) running)
    by (vm_compute; reflexivity).
  split; [exact Hstart|].
  destruct (Start_returns_its_stopped_channel _ _ _ _ Hstart)
    as (Hsc & Hnew & Hopen & _ & _ & Hrun).
  split; [exact Hsc|]. split; [exact Hnew|]. split; [exact Hopen | exact Hrun].
Defined.

(** Two more identity replies in the running session: no panic, the
    identity is the last address. *)
Lemma dispatch_is_safe_without_waiter_witness :
  selfAddressReceivedChan (mgr running) = None ∧
  ∃ w', dispatchAll [identity_reply "B"; identity_reply "C"] running = Done tt w' ∧
        clientID (mgr w') = "C" ∧ chans w' = chans running.
Proof.
  split; [reflexivity|].
  destruct (dispatch_is_safe_without_waiter
              [identity_reply "B"; identity_reply "C"] running eq_refl)
    as (w' & Hd & Hm & Hch & _).
  exists w'. split; [exact Hd|]. split; [|exact Hch].
  rewrite Hm. vm_compute. reflexivity.
Defined.

(** The session started with identity [A], a frame, then [Stop] with the
    peer gone: channel 2 and connection 0 are closed. *)
Lemma Stop_closes_the_channel_Start_returned_witness :
  Start (answering ["A"]) idle = Done (Some 2, None) running ∧
  ∃ w2 w3,
    dispatchAll [identity_reply "B"] running = Done tt w2 ∧
    Stop deaf w2 = Done tt w3 ∧
    chans w3 !! 2 = Some ChClosed ∧
    result (IsRunning w3) = Some false.
Proof.
  assert (Hstart : Start (answering ["A"]) idle = Done (Some 2, None) running)
    by (vm_compute; reflexivity).
  split; [exact Hstart|].
  destruct (Stop_closes_the_channel_Start_returned (answering ["A"]) deaf
              [identity_reply "B"] idle running 2 Hstart)
    as (w2 & w3 & c & Hd & Hstop & _ & _ & Hclosed & _ & Hrun).
  exists w2, w3. split; [exact Hd|]. split; [exact Hstop|].
  split; [exact Hclosed | exact Hrun].
Defined.


(** At the end of the day a [Stop] returns, with the peer there or gone. *)
Lemma Stop_never_panics_witness :
  NewNymSocketManager "ws://127.0.0.1:1977" true true = Valid (mgr idle) ∧
  run a_day idle = Done tt evening ∧
  ∃ w', Stop deaf evening = Done tt w' ∧
        selfInstanceStoppedChan (mgr w') = None.
Proof.
  assert (Hrun : run a_day idle = Done tt evening) by (vm_compute; reflexivity).
  split; [reflexivity|]. split; [exact Hrun|].
  destruct (Stop_never_panics "ws://127.0.0.1:1977" true true (mgr idle)
              a_day evening deaf eq_refl Hrun)
    as (w' & Hstop & Hnone & _).
  exists w'. split; [exact Hstop | exact Hnone].
Defined.

(** At the end of the day the first connection is closed and the second,
    which the manager holds, is the only open one. *)
Lemma at_most_one_open_connection_witness :
  NewNymSocketManager "ws://127.0.0.1:1977" true true = Valid (mgr idle) ∧
  run a_day idle = Done tt evening ∧
  conns evening !! 1 = Some ConnOpen ∧
  connection (mgr evening) = Some 1 ∧
  ∀ c, conns evening !! c = Some ConnOpen → c = 1.
Proof.
  assert (Hrun : run a_day idle = Done tt evening) by (vm_compute; reflexivity).
  assert (Hopen : conns evening !! 1 = Some ConnOpen) by (vm_compute; reflexivity).
  split; [reflexivity|]. split; [exact Hrun|]. split; [exact Hopen|].
  destruct (at_most_one_open_connection "ws://127.0.0.1:1977" true true
              (mgr idle) a_day evening eq_refl Hrun)
    as (Hheld & Hone & _).
  split; [exact (Hheld 1 Hopen)|].
  intros c Hc. exact (Hone c 1 Hc Hopen).
Defined.

(** Identity [A], [Stop], identity [B]: channels 2 and 5, connections 0
    and 1. *)
Lemma Start_after_Stop_is_a_new_session_witness :
  Start (answering ["A"]) idle = Done (Some 2, None) running ∧
  Stop calm running = Done tt stopped ∧
  Start (answering ["B"]) stopped = Done (Some 5, None) restarted ∧
  chans restarted !! 2 = Some ChClosed ∧ chans restarted !! 5 = Some ChOpen.
Proof.
  assert (H1 : Start (answering ["A"]) idle = Done (Some 2, None) running)
    by (vm_compute; reflexivity).
  assert (Hstop : Stop calm running = Done tt stopped)
    by (vm_compute; reflexivity).
  assert (H2 : Start (answering ["B"]) stopped = Done (Some 5, None) restarted)
    by (vm_compute; reflexivity).
  split; [exact H1|]. split; [exact Hstop|]. split; [exact H2|].
  destruct (Start_after_Stop_is_a_new_session _ _ _ _ _ _ _ _ _ H1 Hstop H2)
    as (_ & Hclosed & Hopen & _).
  split; [exact Hclosed | exact Hopen].
Defined.

(** After the timed-out [Start], a [Stop], a [Start], an identity reply
    and a [Send] later: connection 0 is still open and still the
    manager's. *)
Lemma failed_handshake_wedges_the_manager_witness :
  connection (mgr idle) = None ∧
  selfInstanceStoppedChan (mgr idle) = None ∧
  Start silent idle = Done (None, Some ErrCollectClientID) timed_out ∧
  run aftermath timed_out = Done tt (world_of (run aftermath timed_out)) ∧
  ∃ c, connection (mgr (world_of (run aftermath timed_out))) = Some c ∧
       conns (world_of (run aftermath timed_out)) !! c = Some ConnOpen ∧
       result (IsRunning (world_of (run aftermath timed_out))) = Some true.
Proof.
  assert (Hstart : Start silent idle = Done (None, Some ErrCollectClientID) timed_out)
    by (vm_compute; reflexivity).
  assert (Hrun : run aftermath timed_out = Done tt (world_of (run aftermath timed_out)))
    by (vm_compute; reflexivity).
  assert (He : ErrCollectClientID ≠ ErrOpenConnection) by discriminate.
  split; [reflexivity|]. split; [reflexivity|]. split; [exact Hstart|].
  split; [exact Hrun|].
  destruct (failed_handshake_wedges_the_manager silent idle timed_out _
              ErrCollectClientID aftermath eq_refl eq_refl Hstart He Hrun)
    as (c & _ & Hc & Hopen & _ & Hrunning).
  exists c. split; [exact Hc|]. split; [exact Hopen | exact Hrunning].
Defined.
